(** * Vidooo backend: the job lifecycle of [backend/app.py]

    A shallow embedding of the FastAPI backend: the in-memory job store
    [generations], the HTTP handlers [generate_video], [get_generation] and
    [get_generations], and the background controller
    [process_video_generation] with its fallback [mock_video_generation].

    Python values are modelled as follows.
    - [str] is [string]; [bytes] is [list byte]; [int] is [Z].
    - [retry_delay] and the arguments of [time.sleep] are rationals [Q]: the
      only arithmetic on them is the multiplication by 1.5, which is exact on
      the floats the loop can reach (20, 30, 45); the product is kept in
      lowest terms.
    - a [dict] is an association list in insertion order, because
      [get_generations] depends on the order of [generations.values()].
    - [response.json()] is a field of the response: the parsed value, or
      nothing when parsing raises.
    - the effects of the controller (store writes, sleeps, HTTP requests,
      file writes) are threaded through a state-and-exception monad whose
      state carries the log of those effects; [print] is left out.
    - the framework is modelled as far as the handlers rely on it: the
      validation of a request body against [VideoGenerationRequest], and
      background tasks that run once each. *)

From Stdlib Require Import List String Ascii ZArith QArith Bool Lia.
From Stdlib Require Import Init.Byte.
From Stdlib Require Import Sorted Permutation OrderedTypeEx RelationClasses.
Import ListNotations.

Set Implicit Arguments.

(** ** Python dictionaries, in insertion order *)

Section Dict.
Variable V : Type.

Definition dict := list (string * V).

(** [d.get(k)], or [d[k]] when the [None] case is turned into [KeyError]. *)
Fixpoint dict_get (k : string) (d : dict) : option V :=
  match d with
  | [] => None
  | (k', v) :: d' => if String.eqb k k' then Some v else dict_get k d'
  end.

(** [d[k] = v]: an existing key keeps its position, a new key goes last. *)
Fixpoint dict_set (k : string) (v : V) (d : dict) : dict :=
  match d with
  | [] => [(k, v)]
  | (k', v') :: d' =>
      if String.eqb k k' then (k, v) :: d' else (k', v') :: dict_set k v d'
  end.

(** [list(d.values())]. *)
Definition dict_values (d : dict) : list V := map snd d.

(** [k in d]. *)
Definition dict_mem (k : string) (d : dict) : bool :=
  match dict_get k d with Some _ => true | None => false end.
End Dict.

(** ** The data model (lines 53-67) *)

(** The four values the code ever writes into the [status] field. *)
Inductive Status := pending | processing | completed | failed.

Definition status_str (s : Status) : string :=
  match s with
  | pending => "pending"
  | processing => "processing"
  | completed => "completed"
  | failed => "failed"
  end.

(** [class VideoGenerationRequest(BaseModel)]. *)
Record VideoGenerationRequest := {
  req_characterImageUrl : string;
  req_script : string;
  req_duration : Z;
  req_quality : string
}.

(** [class VideoGeneration(BaseModel)]; also the shape of the dictionaries
    kept in [generations] (they are [generation.dict()]). *)
Record VideoGeneration := {
  id : string;
  characterImageUrl : string;
  script : string;
  duration : Z;
  quality : string;
  videoUrl : option string;
  status : Status;
  createdAt : string
}.

(** [g["status"] = s]. *)
Definition with_status (s : Status) (g : VideoGeneration) : VideoGeneration :=
  {| id := id g; characterImageUrl := characterImageUrl g; script := script g;
     duration := duration g; quality := quality g; videoUrl := videoUrl g;
     status := s; createdAt := createdAt g |}.

(** [g.update({"status": s, "videoUrl": u})]. *)
Definition update_status_videoUrl (s : Status) (u : string)
    (g : VideoGeneration) : VideoGeneration :=
  {| id := id g; characterImageUrl := characterImageUrl g; script := script g;
     duration := duration g; quality := quality g; videoUrl := Some u;
     status := s; createdAt := createdAt g |}.

(** The global [generations = {}]. *)
Definition Store := dict VideoGeneration.

(** ** [list.sort(key=..., reverse=True)]

    CPython keeps a reverse sort stable by reversing the list, running its
    stable ascending sort (which compares keys with [<] only) and reversing
    the result.  The stable ascending sort is an insertion sort here. *)

Section Sort.
Variable A : Type.
Variable key : A -> string.

Fixpoint insert (x : A) (l : list A) : list A :=
  match l with
  | [] => [x]
  | y :: l' =>
      if String.ltb (key y) (key x) then y :: insert x l' else x :: l
  end.

Definition stable_sort (l : list A) : list A := fold_right insert [] l.

Definition sort_reverse (l : list A) : list A := rev (stable_sort (rev l)).

(** [asc a b]: [a] may stand before [b] in ascending order of the keys;
    [desc a b]: in descending order. *)
Definition asc (a b : A) : Prop := String.leb (key a) (key b) = true.
Definition desc (a b : A) : Prop := String.leb (key b) (key a) = true.

(** The elements that carry the key [k]. *)
Definition has_key (k : string) (x : A) : bool := String.eqb (key x) k.
End Sort.

(** ** [GET /generations] (lines 131-136) *)

Definition get_generations (generations : Store) : list VideoGeneration :=
  let generation_list := dict_values generations in
  let generation_list := sort_reverse createdAt generation_list in
  firstn 10 generation_list.

(** ** [GET /generation/{generation_id}] (lines 123-129) *)

Inductive HTTPResponse (A : Type) :=
| HTTP_ok (body : A)
| HTTPException (status_code : Z) (detail : string).
Arguments HTTP_ok {A} body.
Arguments HTTPException {A} status_code detail.

Definition get_generation (generation_id : string) (generations : Store)
    : HTTPResponse VideoGeneration :=
  match dict_get generation_id generations with
  | None => HTTPException 404 "Generation not found"
  | Some g => HTTP_ok g
  end.

(** ** JSON values, as [response.json()] returns them *)

Unset Elimination Schemes.
Inductive json :=
| JNull
| JBool (b : bool)
| JNum (q : Q)
| JStr (s : string)
| JArr (items : list json)
| JObj (members : dict json).
Set Elimination Schemes.

(** ** The outside world: the remote endpoint and the file system *)

(** What the controller reads from a [requests.Response]. [json_body] is the
    value [response.json()] returns, [None] when it raises [JSONDecodeError];
    [content_type] is the header of that name, [None] when it is not sent. *)
Record Response := {
  status_code : Z;
  content_type : option string;
  content : list byte;
  json_body : option json;
  text : string
}.

(** The arguments of [requests.post] (lines 183-189). *)
Record PostRequest := {
  post_url : string;
  post_authorization : string;
  post_accept : string;
  post_file_name : string;
  post_file_data : list byte;
  post_file_type : string;
  post_num_frames : Z;
  post_timeout : Z
}.

(** One answer of the network to a [requests.post]: a response, or a
    [requests.exceptions.RequestException] (connection error, timeout). *)
Inductive PostResult :=
| Responded (r : Response)
| RequestFailed (reason : string).

(** The effects a handler or the controller performs on the outside. *)
Inductive Effect :=
| StoreWrite (snapshot : Store)
| Sleep (seconds : Q)
| Post (request : PostRequest)
| FileWrite (path : string) (data : list byte).

(** The state: the global [generations], the files under the working
    directory, the answers the network will give to the next requests, and
    the log of the effects performed so far, newest first.  Every write to
    [generations] logs the store it produces, so the [StoreWrite] entries
    are the states of the store a concurrent reader can observe. *)
Record World := {
  generations : Store;
  files : dict (list byte);
  network : list PostResult;
  log : list Effect
}.

(** The configuration: the global [HF_TOKEN] (line 47) and which paths the
    process can open for writing. *)
Record Env := {
  HF_TOKEN : option string;
  writable : string -> bool
}.

(** ** Exceptions *)

(** The messages of the [raise Exception(...)] statements. *)
Inductive Message :=
| CharacterImageNotFound (image_path : string)
| ApiRequestFailed (code : Z) (detail : json)
| NonVideoResponse (error_data : json)
| ResponseTooSmall (content_length : nat)
| EmptyVideoFile.

Inductive exn :=
| KeyError (key : string)
| Exception (msg : Message)
| RequestException (reason : string)
| JSONDecodeError
| AttributeError
| TypeError
| ValueError
| OSError (path : string).

(** ** The state-and-exception monad *)

Inductive Result (A : Type) :=
| Ok (a : A)
| Raise (e : exn).
Arguments Ok {A} a.
Arguments Raise {A} e.

Definition M (A : Type) : Type := World -> Result A * World.

Definition ret {A : Type} (a : A) : M A := fun w => (Ok a, w).

Definition raise {A : Type} (e : exn) : M A := fun w => (Raise e, w).

Definition bind {A B : Type} (c : M A) (k : A -> M B) : M B :=
  fun w =>
    match c w with
    | (Ok a, w') => k a w'
    | (Raise e, w') => (Raise e, w')
    end.

Notation "x <- c1 ;; c2" := (bind c1 (fun x => c2))
  (at level 61, c1 at next level, right associativity).
Notation "c1 ;; c2" := (bind c1 (fun _ => c2))
  (at level 61, right associativity).

(** [try: body except ...: handler]; [handler e = None] when no [except]
    clause matches [e], which then propagates.  The effects of [body] up to
    the exception stay. *)
Definition try_except {A : Type} (body : M A) (handler : exn -> option (M A))
    : M A :=
  fun w =>
    match body w with
    | (Ok a, w') => (Ok a, w')
    | (Raise e, w') =>
        match handler e with
        | Some h => h w'
        | None => (Raise e, w')
        end
    end.

(** [except Exception] and the bare [except:] catch every exception of the
    model; [except requests.exceptions.RequestException] and
    [except json.JSONDecodeError] catch one kind. *)
Definition except_all {A : Type} (h : exn -> M A) : exn -> option (M A) :=
  fun e => Some (h e).

Definition except_RequestException {A : Type} (h : exn -> M A)
    : exn -> option (M A) :=
  fun e => match e with RequestException _ => Some (h e) | _ => None end.

Definition except_JSONDecodeError {A : Type} (h : exn -> M A)
    : exn -> option (M A) :=
  fun e => match e with JSONDecodeError => Some (h e) | _ => None end.

(** ** Primitive operations *)

Definition log_effect (e : Effect) (w : World) : World :=
  {| generations := generations w; files := files w; network := network w;
     log := e :: log w |}.

(** [generations[generation_id]], raising [KeyError]. *)
Definition store_lookup (generation_id : string) : M VideoGeneration :=
  fun w =>
    match dict_get generation_id (generations w) with
    | Some g => (Ok g, w)
    | None => (Raise (KeyError generation_id), w)
    end.

(** [generations[generation_id] = g]. *)
Definition store_write (generation_id : string) (g : VideoGeneration) : M unit :=
  fun w =>
    let s := dict_set generation_id g (generations w) in
    (Ok tt, {| generations := s; files := files w; network := network w;
               log := StoreWrite s :: log w |}).

(** [generations[generation_id]["status"] = s]. *)
Definition set_status (generation_id : string) (s : Status) : M unit :=
  g <- store_lookup generation_id ;;
  store_write generation_id (with_status s g).

(** [generations[generation_id].update({"status": s, "videoUrl": u})]. *)
Definition update_generation (generation_id : string) (s : Status) (u : string)
    : M unit :=
  g <- store_lookup generation_id ;;
  store_write generation_id (update_status_videoUrl s u g).

(** [time.sleep(seconds)] on a number. *)
Definition time_sleep (seconds : Q) : M unit :=
  fun w => (Ok tt, log_effect (Sleep seconds) w).

(** [time.sleep(v)] on a value read from JSON: a negative number raises
    [ValueError], a Boolean counts as 0 or 1, anything else raises
    [TypeError]. *)
Definition time_sleep_json (v : json) : M unit :=
  match v with
  | JNum q => if Qle_bool 0 q then time_sleep q else raise ValueError
  | JBool b => time_sleep (if b then 1 else 0)
  | _ => raise TypeError
  end.

(** [requests.post(...)]: the request goes out and the network gives its
    next answer; a network with no answer left refuses the connection. *)
Definition requests_post (request : PostRequest) : M Response :=
  fun w =>
    match network w with
    | [] =>
        (Raise (RequestException "connection refused"), log_effect (Post request) w)
    | answer :: rest =>
        let w' := {| generations := generations w; files := files w;
                     network := rest; log := Post request :: log w |} in
        match answer with
        | Responded r => (Ok r, w')
        | RequestFailed reason => (Raise (RequestException reason), w')
        end
    end.

(** [response.json()]. *)
Definition response_json (response : Response) : M json :=
  match json_body response with
  | Some v => ret v
  | None => raise JSONDecodeError
  end.

(** [v.get(k, default)]; only a JSON object has the method. *)
Definition json_get (v : json) (k : string) (default : json) : M json :=
  match v with
  | JObj members =>
      ret (match dict_get k members with Some x => x | None => default end)
  | _ => raise AttributeError
  end.

(** [os.path.exists(path)]. *)
Definition os_path_exists (path : string) : M bool :=
  fun w => (Ok (dict_mem path (files w)), w).

(** [os.path.getsize(path)]. *)
Definition os_path_getsize (path : string) : M nat :=
  fun w =>
    match dict_get path (files w) with
    | Some data => (Ok (List.length data), w)
    | None => (Raise (OSError path), w)
    end.

(** [with open(path, "rb") as f: f.read()]. *)
Definition read_file (path : string) : M (list byte) :=
  fun w =>
    match dict_get path (files w) with
    | Some data => (Ok data, w)
    | None => (Raise (OSError path), w)
    end.

(** [with open(path, "wb") as f: f.write(data)]. *)
Definition write_file (env : Env) (path : string) (data : list byte) : M unit :=
  fun w =>
    if writable env path then
      (Ok tt, {| generations := generations w;
                 files := dict_set path data (files w);
                 network := network w;
                 log := FileWrite path data :: log w |})
    else (Raise (OSError path), w).

(** [s.replace(old, new)] for a non-empty [old]: the occurrences are found
    from the left and do not overlap.  [skip] counts the characters of a
    matched occurrence that are still to be dropped. *)
Fixpoint replace_from (old new : string) (skip : nat) (s : string) : string :=
  match s with
  | EmptyString => EmptyString
  | String c s' =>
      match skip with
      | S n => replace_from old new n s'
      | O =>
          if String.prefix old s
          then String.append new (replace_from old new (String.length old - 1) s')
          else String c (replace_from old new 0 s')
      end
  end.

Definition str_replace (old new s : string) : string := replace_from old new 0 s.

(** The truth value of a string that may be [None]. *)
Definition truthy (v : option string) : bool :=
  match v with
  | Some (String _ _) => true
  | _ => false
  end.

(** ** The fallback generator (lines 265-307) *)

Definition video_filename_of (generation_id : string) : string :=
  String.append "video_" (String.append generation_id ".mp4").

Definition video_path_of (generation_id : string) : string :=
  String.append "videos/" (video_filename_of generation_id).

Definition video_url_of (generation_id : string) : string :=
  String.append "/videos/" (video_filename_of generation_id).

Definition mp4_data : list byte :=
  [ (* ftyp box *)
    x00; x00; x00; x20; x66; x74; x79; x70; x69; x73; x6f; x6d;
    x00; x00; x02; x00; x69; x73; x6f; x6d; x69; x73; x6f; x32;
    x61; x76; x63; x31; x6d; x70; x34; x31;
    (* free box *)
    x00; x00; x00; x08; x66; x72; x65; x65;
    (* mdat box *)
    x00; x00; x00; x10; x6d; x64; x61; x74;
    x00; x00; x00; x00; x00; x00; x00; x00;
    (* moov box *)
    x00; x00; x00; x28; x6d; x6f; x6f; x76;
    x00; x00; x00; x6c; x6d; x76; x68; x64;
    x00; x00; x00; x00; x00; x00; x00; x00;
    x00; x00; x00; x00; x00; x00; x03; xe8;
    x00; x00; x00; x00; x00; x01; x00; x00 ].

(** The [try] block of [mock_video_generation]. *)
Definition mock_body (env : Env) (generation_id : string) : M unit :=
  time_sleep 10 ;;
  let video_filename := video_filename_of generation_id in
  let video_path := String.append "videos/" video_filename in
  write_file env video_path mp4_data ;;
  update_generation generation_id completed
    (String.append "/videos/" video_filename).

Definition mock_video_generation (env : Env) (generation_id : string) : M unit :=
  try_except (mock_body env generation_id)
    (except_all (fun _ => set_status generation_id failed)).

(** ** The controller (lines 138-263) *)

Definition HF_API_URL : string :=
  "https://api-inference.huggingface.co/models/stabilityai/stable-video-diffusion-img2vid-xt".

Definition max_retries : nat := 3.

(** How one iteration of the [for attempt in range(max_retries)] loop ends
    when it raises nothing: [continue], with the value [retry_delay] then
    has, or [return]. *)
Inductive Flow :=
| Continue (retry_delay : Q)
| Return.

(** Lines 192-200: the wait after a 503 response. *)
Definition wait_for_model (response : Response) (retry_delay : Q) : M unit :=
  try_except
    (error_data <- response_json response ;;
     estimated_time <- json_get error_data "estimated_time" (JNum retry_delay) ;;
     time_sleep_json estimated_time)
    (except_all (fun _ => time_sleep retry_delay)).

(** Lines 206-214: a status other than 200 raises, with the detail of the
    error taken from the payload or, failing that, from the raw body. *)
Definition fail_with_status (response : Response) : M unit :=
  detail <- try_except
              (error_data <- response_json response ;;
               json_get error_data "error" (JStr (text response)))
              (except_all (fun _ => ret (JStr (text response)))) ;;
  raise (Exception (ApiRequestFailed (status_code response) detail)).

(** Lines 216-231: the check that a 200 response carries a video. *)
Definition check_video_content (response : Response) : M unit :=
  let content_type :=
    match content_type response with Some v => v | None => EmptyString end in
  let content_length := List.length (content response) in
  if negb (String.prefix "video/" content_type)
     && negb (String.prefix "application/octet-stream" content_type)
  then
    try_except
      (error_data <- response_json response ;;
       raise (Exception (NonVideoResponse error_data)))
      (except_JSONDecodeError (fun _ =>
         if (content_length <? 1000)%nat
         then raise (Exception (ResponseTooSmall content_length))
         else ret tt))
  else ret tt.

(** Lines 233-251: the response is saved and the job completed. *)
Definition save_video (env : Env) (generation_id : string) (response : Response)
    : M unit :=
  let video_filename := video_filename_of generation_id in
  let video_path := String.append "videos/" video_filename in
  write_file env video_path (content response) ;;
  present <- os_path_exists video_path ;;
  empty <- (if negb present then ret true
            else size <- os_path_getsize video_path ;; ret (size =? 0)%nat) ;;
  if empty then raise (Exception EmptyVideoFile)
  else
    update_generation generation_id completed
      (String.append "/videos/" video_filename).

(** The body of the inner [try] (lines 183-251).  [retry_delay] changes only
    on the [continue], so the handler of [attempt] sees the value the
    iteration started with. *)
Definition attempt_body (env : Env) (generation_id : string)
    (request : PostRequest) (attempt : nat) (retry_delay : Q) : M Flow :=
  response <- requests_post request ;;
  again <- (if (status_code response =? 503)%Z then
              wait_for_model response retry_delay ;;
              ret (attempt <? max_retries - 1)%nat
            else ret false) ;;
  if again : bool then ret (Continue (Qred (retry_delay * (3 # 2))))
  else
    if negb (status_code response =? 200)%Z then
      fail_with_status response ;;
      ret Return
    else
      check_video_content response ;;
      save_video env generation_id response ;;
      ret Return.

(** One iteration with its [except requests.exceptions.RequestException]
    (lines 253-259). *)
Definition attempt_once (env : Env) (generation_id : string)
    (request : PostRequest) (attempt : nat) (retry_delay : Q) : M Flow :=
  try_except (attempt_body env generation_id request attempt retry_delay)
    (except_RequestException (fun e =>
       if (attempt <? max_retries - 1)%nat then
         time_sleep retry_delay ;;
         ret (Continue (Qred (retry_delay * (3 # 2))))
       else raise e)).

(** The [for] loop over the attempts still to make. *)
Fixpoint retry_loop (env : Env) (generation_id : string) (request : PostRequest)
    (attempts : list nat) (retry_delay : Q) : M unit :=
  match attempts with
  | [] => ret tt
  | attempt :: rest =>
      flow <- attempt_once env generation_id request attempt retry_delay ;;
      match flow with
      | Return => ret tt
      | Continue retry_delay' =>
          retry_loop env generation_id request rest retry_delay'
      end
  end.

(** The request of lines 158-175 for a job and its image. *)
Definition svd_request (token : string) (generation : VideoGeneration)
    (image_data : list byte) : PostRequest :=
  {| post_url := HF_API_URL;
     post_authorization := String.append "Bearer " token;
     post_accept := "video/mp4";
     post_file_name := "character.jpg";
     post_file_data := image_data;
     post_file_type := "image/jpeg";
     post_num_frames := Z.min (duration generation * 8) 25;
     post_timeout := 300 |}.

(** The outer [try] block from line 144 on, once the job is claimed. *)
Definition process_claimed (env : Env) (generation_id : string) : M unit :=
  generation <- store_lookup generation_id ;;
  if negb (truthy (HF_TOKEN env)) then
    mock_video_generation env generation_id
  else
    let image_path :=
      str_replace "/uploads/" "uploads/" (characterImageUrl generation) in
    present <- os_path_exists image_path ;;
    if negb present then raise (Exception (CharacterImageNotFound image_path))
    else
      image_data <- read_file image_path ;;
      let token := match HF_TOKEN env with Some t => t | None => EmptyString end in
      let request := svd_request token generation image_data in
      retry_loop env generation_id request (seq 0 max_retries) 20.

(** The outer [try] block (lines 141-259). *)
Definition process_body (env : Env) (generation_id : string) : M unit :=
  set_status generation_id processing ;;
  process_claimed env generation_id.

Definition process_video_generation (env : Env) (generation_id : string)
    : M unit :=
  try_except (process_body env generation_id)
    (except_all (fun _ => set_status generation_id failed)).

(** The controller from line 144 on: what is left of a run once its first
    statement has claimed the job. *)
Definition resume_claimed (env : Env) (generation_id : string) : M unit :=
  try_except (process_claimed env generation_id)
    (except_all (fun _ => set_status generation_id failed)).

(** ** [POST /generate-video] (lines 53-57 and 97-121) *)

(** A JSON request body, field by field; [None] is an omitted field. *)
Record RequestBody := {
  body_characterImageUrl : option string;
  body_script : option string;
  body_duration : option Z;
  body_quality : option string
}.

(** The validation the framework runs against [VideoGenerationRequest]
    before it calls the handler: a field declared without a default is
    required, a field declared with one takes it when omitted. *)
Definition validate_VideoGenerationRequest (body : RequestBody)
    : option VideoGenerationRequest :=
  match body_characterImageUrl body, body_script body with
  | Some url, Some text =>
      Some {| req_characterImageUrl := url;
              req_script := text;
              req_duration :=
                match body_duration body with Some d => d | None => 5%Z end;
              req_quality :=
                match body_quality body with Some q => q | None => "768" end |}
  | _, _ => None
  end.

(** The server: the world, the background tasks added and not yet started,
    and the tasks that have claimed their job and not yet ended. *)
Record System := {
  world : World;
  background_tasks : list string;
  running : list string
}.

(** The handler. [uuid4] is the value of [str(uuid.uuid4())] and [utcnow]
    the one of [datetime.utcnow().isoformat(timespec="milliseconds")]. *)
Definition generate_video (request : VideoGenerationRequest)
    (uuid4 utcnow : string) (sys : System)
    : HTTPResponse VideoGeneration * System :=
  let generation_id := uuid4 in
  let generation :=
    {| id := generation_id;
       characterImageUrl := req_characterImageUrl request;
       script := req_script request;
       duration := req_duration request;
       quality := req_quality request;
       videoUrl := None;
       status := pending;
       createdAt := String.append utcnow "Z" |} in
  match store_write generation_id generation (world sys) with
  | (Ok _, w) =>
      (HTTP_ok generation,
       {| world := w;
          background_tasks := background_tasks sys ++ [generation_id];
          running := running sys |})
  | (Raise _, w) =>
      (HTTPException 500 "Failed to start generation",
       {| world := w; background_tasks := background_tasks sys;
          running := running sys |})
  end.

(** The route: validation, then the handler. *)
Definition post_generate_video (body : RequestBody) (uuid4 utcnow : string)
    (sys : System) : HTTPResponse VideoGeneration * System :=
  match validate_VideoGenerationRequest body with
  | None => (HTTPException 422 "Unprocessable Entity", sys)
  | Some request => generate_video request uuid4 utcnow sys
  end.

(** ** [POST /upload-character] (lines 74-95) *)

(** What the handler reads from the [UploadFile]; [None] is a part sent
    without a content type. *)
Record UploadFile := {
  upload_filename : string;
  upload_content_type : option string;
  upload_content : list byte
}.

(** [c in s], for a character [c]. *)
Fixpoint contains_char (c : ascii) (s : string) : bool :=
  match s with
  | EmptyString => false
  | String c' s' => Ascii.eqb c c' || contains_char c s'
  end.

(** [s.split(c)[-1]]: what follows the last [c] of [s], and [s] itself when
    it has none. *)
Fixpoint last_segment (c : ascii) (s : string) : string :=
  match s with
  | EmptyString => EmptyString
  | String c' s' =>
      if contains_char c s' then last_segment c s'
      else if Ascii.eqb c c' then s' else s
  end.

(** What the [try] block of the handler can raise: the [HTTPException] of
    line 80, or an exception of the operations it calls. *)
Inductive UploadError :=
| UploadHTTPException (status_code : Z) (detail : string)
| UploadRaised (e : exn).

(** The answer of the route; a failure carries the exception whose text the
    handler puts after "Upload failed: ". *)
Inductive UploadResult :=
| Uploaded (imageUrl : string)
| UploadFailed (status_code : Z) (cause : UploadError).

Definition upload_filename_of (character : UploadFile) (uuid4 : string)
    : string :=
  let file_extension :=
    if contains_char "." (upload_filename character)
    then last_segment "." (upload_filename character)
    else "jpg"%string in
  String.append "character_"
    (String.append uuid4 (String.append "." file_extension)).

(** The [try] block (lines 78-92). *)
Definition upload_body (env : Env) (character : UploadFile) (uuid4 : string)
    (w : World) : (UploadError + string) * World :=
  match upload_content_type character with
  | None => (inl (UploadRaised AttributeError), w)
  | Some content_type =>
      if negb (String.prefix "image/" content_type) then
        (inl (UploadHTTPException 400 "File must be an image"), w)
      else
        let filename := upload_filename_of character uuid4 in
        let file_path := String.append "uploads/" filename in
        match write_file env file_path (upload_content character) w with
        | (Ok _, w') => (inr (String.append "/uploads/" filename), w')
        | (Raise e, w') => (inl (UploadRaised e), w')
        end
  end.

(** The handler: [except Exception] turns whatever the block raises, the
    [HTTPException] of line 80 included, into a 500. *)
Definition upload_character (env : Env) (character : UploadFile)
    (uuid4 : string) (w : World) : UploadResult * World :=
  match upload_body env character uuid4 w with
  | (inr imageUrl, w') => (Uploaded imageUrl, w')
  | (inl e, w') => (UploadFailed 500 e, w')
  end.

(** ** [GET /health] (lines 69-72) *)

Definition health_check : list (string * string) :=
  [("status", "ok"); ("service", "AI Video Generator API")]%string.

(** ** Closed forms used in the statements *)


(** The detail of the error the controller raises on a status other than
    200: the payload's [error] member, the raw body otherwise. *)
Definition error_detail (r : Response) : json :=
  match json_body r with
  | Some (JObj members) =>
      match dict_get "error" members with
      | Some v => v
      | None => JStr (text r)
      end
  | _ => JStr (text r)
  end.

(** The fields of a job that are set at its creation. *)
Definition inputs_of (g : VideoGeneration)
    : string * string * string * Z * string * string :=
  (id g, characterImageUrl g, script g, duration g, quality g, createdAt g).

(** The keys of a dictionary, in order. *)
Definition dict_keys (V : Type) (d : dict V) : list string := map fst d.

(** The video file of a job is on disk and is not empty. *)
Definition artifact_saved (generation_id : string) (w : World) : Prop :=
  exists data,
    dict_get (video_path_of generation_id) (files w) = Some data /\ data <> [].

(** From [w] to [w'] no file changed but, at most, the video file of the
    job. *)
Definition files_kept (generation_id : string) (w w' : World) : Prop :=
  forall path,
    path <> video_path_of generation_id ->
    dict_get path (files w') = dict_get path (files w).

(** ** The server as a transition system *)

(** What can happen to the server.  The scheduler runs a task it was given
    in a thread of its own, so requests and other tasks can come between its
    steps.  A run of the controller touches the store twice, first to claim
    the job and last to complete or fail it, and is cut there: [TaskStarts]
    is its first statement (line 142), [TaskEnds] the rest, in a
    configuration and against the answers the network gives meanwhile.
    [UploadCharacter] stands for [upload_character] (lines 74-95), of which
    only the file it leaves under [uploads/] matters here. *)
Inductive Event :=
| PostGenerateVideo (body : RequestBody) (uuid4 utcnow : string)
| GetGeneration (generation_id : string)
| GetGenerations
| UploadCharacter (filename : string) (data : list byte)
| TaskStarts (generation_id : string)
| TaskEnds (env : Env) (answers : list PostResult) (generation_id : string).

Fixpoint remove_task (generation_id : string) (tasks : list string)
    : list string :=
  match tasks with
  | [] => []
  | t :: tasks' =>
      if String.eqb generation_id t then tasks'
      else t :: remove_task generation_id tasks'
  end.

Definition with_network (answers : list PostResult) (w : World) : World :=
  {| generations := generations w; files := files w; network := answers;
     log := log w |}.

Definition handle (ev : Event) (sys : System) : System :=
  match ev with
  | PostGenerateVideo body uuid4 utcnow =>
      snd (post_generate_video body uuid4 utcnow sys)
  | GetGeneration _ => sys
  | GetGenerations => sys
  | UploadCharacter filename data =>
      let w := world sys in
      let path := String.append "uploads/" filename in
      {| world := {| generations := generations w;
                     files := dict_set path data (files w);
                     network := network w;
                     log := FileWrite path data :: log w |};
         background_tasks := background_tasks sys;
         running := running sys |}
  | TaskStarts generation_id =>
      if existsb (String.eqb generation_id) (background_tasks sys) then
        match set_status generation_id processing (world sys) with
        | (Ok _, w) =>
            {| world := w;
               background_tasks :=
                 remove_task generation_id (background_tasks sys);
               running := generation_id :: running sys |}
        | (Raise _, w) =>
            (* the handler of line 261 raises in turn and the task is over *)
            {| world := snd (set_status generation_id failed w);
               background_tasks :=
                 remove_task generation_id (background_tasks sys);
               running := running sys |}
        end
      else sys
  | TaskEnds env answers generation_id =>
      if existsb (String.eqb generation_id) (running sys) then
        {| world :=
             snd (resume_claimed env generation_id
                    (with_network answers (world sys)));
           background_tasks := background_tasks sys;
           running := remove_task generation_id (running sys) |}
      else sys
  end.

(** The server starts with an empty store and no task. *)
Definition initial (disk : dict (list byte)) : System :=
  {| world := {| generations := []; files := disk; network := []; log := [] |};
     background_tasks := []; running := [] |}.

(** The states the server can be in.  The identifier of a new job is new:
    this is what [uuid.uuid4()] is relied on for. *)
Inductive reachable : System -> Prop :=
| reachable_initial (disk : dict (list byte)) : reachable (initial disk)
| reachable_submit (sys : System) (body : RequestBody) (uuid4 utcnow : string) :
    reachable sys ->
    dict_mem uuid4 (generations (world sys)) = false ->
    reachable (handle (PostGenerateVideo body uuid4 utcnow) sys)
| reachable_get (sys : System) (generation_id : string) :
    reachable sys -> reachable (handle (GetGeneration generation_id) sys)
| reachable_list (sys : System) :
    reachable sys -> reachable (handle GetGenerations sys)
| reachable_upload (sys : System) (filename : string) (data : list byte) :
    reachable sys -> reachable (handle (UploadCharacter filename data) sys)
| reachable_start (sys : System) (generation_id : string) :
    reachable sys -> reachable (handle (TaskStarts generation_id) sys)
| reachable_end (sys : System) (env : Env) (answers : list PostResult)
    (generation_id : string) :
    reachable sys ->
    reachable (handle (TaskEnds env answers generation_id) sys).

(** ** Reading the log *)

(** The effects performed between [w] and a later [w'], oldest first. *)
Definition new_effects (w w' : World) : list Effect :=
  rev (firstn (List.length (log w') - List.length (log w)) (log w')).

Definition sleeps (effects : list Effect) : list Q :=
  flat_map (fun e => match e with Sleep q => [q] | _ => [] end) effects.

Definition requests (effects : list Effect) : list PostRequest :=
  flat_map (fun e => match e with Post r => [r] | _ => [] end) effects.

Definition snapshots (effects : list Effect) : list Store :=
  flat_map (fun e => match e with StoreWrite s => [s] | _ => [] end) effects.

(** The states of the store since the server started, oldest first. *)
Definition history (w : World) : list Store := [] :: snapshots (rev (log w)).

Definition status_of (generation_id : string) (s : Store) : option Status :=
  option_map status (dict_get generation_id s).

Definition videoUrl_of (generation_id : string) (s : Store)
    : option (option string) :=
  option_map videoUrl (dict_get generation_id s).

(** The transitions of the life cycle. *)
Inductive next_status : Status -> Status -> Prop :=
| next_start : next_status pending processing
| next_success : next_status processing completed
| next_error : next_status processing failed.

Definition terminal (s : Status) : bool :=
  match s with
  | completed | failed => true
  | pending | processing => false
  end.

Definition is_set (v : option string) : bool :=
  match v with Some _ => true | None => false end.

(** [quiet_log P base l]: [l] is [base] followed by effects that leave the
    store alone and whose requests all satisfy [P]. *)
Inductive quiet_log (P : PostRequest -> Prop) (base : list Effect)
    : list Effect -> Prop :=
| quiet_here : quiet_log P base base
| quiet_sleep (q : Q) (l : list Effect) :
    quiet_log P base l -> quiet_log P base (Sleep q :: l)
| quiet_post (r : PostRequest) (l : list Effect) :
    P r -> quiet_log P base l -> quiet_log P base (Post r :: l)
| quiet_file (path : string) (data : list byte) (l : list Effect) :
    quiet_log P base l -> quiet_log P base (FileWrite path data :: l).

(** [log_grows n base l]: [l] is [base] followed by effects of which
    exactly [n] are requests. *)
Inductive log_grows : nat -> list Effect -> list Effect -> Prop :=
| grows_here (base : list Effect) : log_grows 0 base base
| grows_store (n : nat) (base : list Effect) (s : Store) (l : list Effect) :
    log_grows n base l -> log_grows n base (StoreWrite s :: l)
| grows_sleep (n : nat) (base : list Effect) (q : Q) (l : list Effect) :
    log_grows n base l -> log_grows n base (Sleep q :: l)
| grows_file (n : nat) (base : list Effect) (path : string) (data : list byte)
    (l : list Effect) :
    log_grows n base l -> log_grows n base (FileWrite path data :: l)
| grows_post (n : nat) (base : list Effect) (r : PostRequest) (l : list Effect) :
    log_grows n base l -> log_grows (S n) base (Post r :: l).

(** A run from [w] to [w'] that does not write the store. *)
Definition quiet (P : PostRequest -> Prop) (w w' : World) : Prop :=
  generations w' = generations w /\ quiet_log P (log w) (log w').

(** A run from [w] to [w'] whose last effect, and only store write, is to
    replace the record [g] of [generation_id] by [f g]. *)
Definition wrote (P : PostRequest -> Prop) (generation_id : string)
    (f : VideoGeneration -> VideoGeneration) (w w' : World) : Prop :=
  exists g l,
    dict_get generation_id (generations w) = Some g
    /\ generations w' = dict_set generation_id (f g) (generations w)
    /\ quiet_log P (log w) l
    /\ log w' = StoreWrite (generations w') :: l.

(** The world once the controller has claimed the job whose record is [g]. *)
Definition started (generation_id : string) (g : VideoGeneration) (w : World)
    : World :=
  let s := dict_set generation_id (with_status processing g) (generations w) in
  {| generations := s; files := files w; network := network w;
     log := StoreWrite s :: log w |}.

(** The world once [request] has gone out and the network has given its
    next answer, [rest] being the answers still to come. *)
Definition answered (request : PostRequest) (rest : list PostResult) (w : World)
    : World :=
  {| generations := generations w; files := files w; network := rest;
     log := Post request :: log w |}.

(** The world once [data] is saved as the video of the job whose record is
    [g], and the job completed. *)
Definition saved (generation_id : string) (g : VideoGeneration)
    (data : list byte) (w : World) : World :=
  let s :=
    dict_set generation_id
      (update_status_videoUrl completed (video_url_of generation_id) g)
      (generations w) in
  {| generations := s;
     files := dict_set (video_path_of generation_id) data (files w);
     network := network w;
     log := StoreWrite s :: FileWrite (video_path_of generation_id) data :: log w |}.

(** The world once the job whose record is [g] is marked failed. *)
Definition marked_failed (generation_id : string) (g : VideoGeneration)
    (w : World) : World :=
  let s := dict_set generation_id (with_status failed g) (generations w) in
  {| generations := s; files := files w; network := network w;
     log := StoreWrite s :: log w |}.

(** The path at which the controller looks for the image of a job
    (line 153). *)
Definition image_path_of (g : VideoGeneration) : string :=
  str_replace "/uploads/" "uploads/" (characterImageUrl g).

(** The token sent when one is configured. *)
Definition token_of (env : Env) : string :=
  match HF_TOKEN env with Some t => t | None => EmptyString end.

(** The frame count the controller asks for, for a job. *)
Definition frames_of (g : VideoGeneration) (r : PostRequest) : Prop :=
  post_num_frames r = Z.min (duration g * 8) 25.

(** A 503 payload that names no waiting time. *)
Definition no_estimated_time (r : Response) : Prop :=
  match json_body r with
  | Some (JObj members) => dict_get "estimated_time" members = None
  | _ => True
  end.

(** The test of line 220. *)
Definition video_content_type (r : Response) : bool :=
  let content_type :=
    match content_type r with Some v => v | None => EmptyString end in
  String.prefix "video/" content_type
  || String.prefix "application/octet-stream" content_type.

(** ** The invariant of the server *)

(** [Chain R l]: each element of [l] is related to the next one. *)
Inductive Chain (A : Type) (R : A -> A -> Prop) : list A -> Prop :=
| Chain_nil : Chain R []
| Chain_one (a : A) : Chain R [a]
| Chain_cons (a b : A) (l : list A) :
    R a b -> Chain R (b :: l) -> Chain R (a :: b :: l).

(** From one observable state of the store to the next, the status of a job
    stays or takes one transition of the life cycle, and a job that appears
    is pending. *)
Definition store_step (s1 s2 : Store) : Prop :=
  forall generation_id,
    match status_of generation_id s1 with
    | Some st1 =>
        exists st2,
          status_of generation_id s2 = Some st2
          /\ (st2 = st1 \/ next_status st1 st2)
    | None =>
        status_of generation_id s2 = None
        \/ status_of generation_id s2 = Some pending
    end.

(** In a state of the store, [videoUrl] is set exactly on the completed
    jobs. *)
Definition url_iff_completed (s : Store) : Prop :=
  forall generation_id g,
    dict_get generation_id s = Some g ->
    (is_set (videoUrl g) = true <-> status g = completed).

Record invariant (sys : System) : Prop := {
  inv_current : last (history (world sys)) [] = generations (world sys);
  inv_chain : Chain store_step (history (world sys));
  inv_url : Forall url_iff_completed (history (world sys));
  inv_tasks :
    forall generation_id,
      In generation_id (background_tasks sys) ->
      status_of generation_id (generations (world sys)) = Some pending;
  inv_nodup : NoDup (background_tasks sys);
  inv_running :
    forall generation_id,
      In generation_id (running sys) ->
      status_of generation_id (generations (world sys)) = Some processing;
  inv_running_nodup : NoDup (running sys)
}.

(** ** Sample data *)

Definition sample_env : Env :=
  {| HF_TOKEN := Some "hf_sample"%string; writable := fun _ => true |}.

Definition sample_env_without_token : Env :=
  {| HF_TOKEN := None; writable := fun _ => true |}.

Definition sample_loading : Response :=
  {| status_code := 503;
     content_type := Some "application/json"%string;
     content := [];
     json_body := Some (JObj [("error"%string, JStr "Model is currently loading")]);
     text := "" |}.

Definition sample_video : Response :=
  {| status_code := 200;
     content_type := Some "video/mp4"%string;
     content := [x00; x00; x00; x20; x66; x74; x79; x70];
     json_body := None;
     text := "" |}.

(** A 200 answer of [n] bytes of plain text that is not JSON. *)
Definition sample_text (n : nat) : Response :=
  {| status_code := 200;
     content_type := Some "text/plain"%string;
     content := repeat x61 n;
     json_body := None;
     text := "" |}.

Definition sample_body : RequestBody :=
  {| body_characterImageUrl := Some "/uploads/character_1.jpg"%string;
     body_script := Some "Hello"%string;
     body_duration := None;
     body_quality := None |}.

Definition sample_disk : dict (list byte) :=
  [("uploads/character_1.jpg"%string, [xff; xd8; xff; xe0])].

(** The server after one submission. *)
Definition sample_system : System :=
  handle (PostGenerateVideo sample_body "job-1" "2024-05-01T10:00:00.000")
    (initial sample_disk).

(** The record of that submission. *)
Definition sample_job : VideoGeneration :=
  {| id := "job-1";
     characterImageUrl := "/uploads/character_1.jpg";
     script := "Hello";
     duration := 5;
     quality := "768";
     videoUrl := None;
     status := pending;
     createdAt := "2024-05-01T10:00:00.000Z" |}.

(** The server once the task of the first job has started, a second job
    has been submitted meanwhile, the first task has ended against two 503
    answers and a video, and the second task has started. *)
Definition sample_done : System :=
  handle
    (TaskEnds sample_env
       [Responded sample_loading; Responded sample_loading; Responded sample_video]
       "job-1")
    (handle (PostGenerateVideo sample_body "job-2" "2024-05-01T10:05:00.000")
       (handle (TaskStarts "job-1") sample_system)).

Definition sample_final : System := handle (TaskStarts "job-2") sample_done.

Unset Implicit Arguments.

(** ** Facts about the string order *)

Lemma ltb_irrefl (s : string) : String.ltb s s = false.
Proof.
  unfold String.ltb.
  destruct (String.compare s s) eqn:E; try reflexivity.
  pose proof (String.compare_antisym s s) as H.
  rewrite E in H. discriminate H.
Qed.

Lemma ltb_lt (a b : string) : String.ltb a b = true <-> String_as_OT.lt a b.
Proof.
  unfold String.ltb. rewrite <- String_as_OT.cmp_lt. unfold String_as_OT.cmp.
  destruct (String.compare a b); split; congruence.
Qed.

Lemma ltb_trans (a b c : string) :
  String.ltb a b = true -> String.ltb b c = true -> String.ltb a c = true.
Proof.
  rewrite !ltb_lt. apply String_as_OT.lt_trans.
Qed.

Lemma ltb_false_leb (a b : string) :
  String.ltb a b = false <-> String.leb b a = true.
Proof.
  unfold String.ltb, String.leb. rewrite (String.compare_antisym b a).
  destruct (String.compare a b); simpl; split; congruence.
Qed.

Lemma leb_trans (a b c : string) :
  String.leb a b = true -> String.leb b c = true -> String.leb a c = true.
Proof.
  rewrite <- !ltb_false_leb. intros Hba Hcb.
  destruct (String.ltb c a) eqn:Hca; [|reflexivity].
  destruct (String.ltb b a) eqn:E; [discriminate|].
  apply ltb_false_leb in E.
  destruct (String.ltb c b) eqn:F; [discriminate|].
  apply ltb_false_leb in F.
  (* a <= b <= c < a *)
  unfold String.leb in E, F. unfold String.ltb in Hca.
  destruct (String.compare a b) eqn:Cab; try discriminate.
  - apply String.compare_eq_iff in Cab. subst b.
    rewrite String.compare_antisym in Hca.
    destruct (String.compare a c); simpl in *; congruence.
  - destruct (String.compare b c) eqn:Cbc; try discriminate.
    + apply String.compare_eq_iff in Cbc. subst c.
      rewrite String.compare_antisym, Cab in Hca. discriminate.
    + assert (String.ltb a c = true) as Hac.
      { apply ltb_trans with b; unfold String.ltb; [rewrite Cab|rewrite Cbc]; reflexivity. }
      unfold String.ltb in Hac. rewrite String.compare_antisym in Hca.
      destruct (String.compare a c); simpl in *; congruence.
Qed.

(** ** Facts about the sort *)

Section SortFacts.
Variable A : Type.
Variable key : A -> string.

Lemma asc_trans : Transitive (asc key).
Proof. intros a b c. unfold asc. apply leb_trans. Qed.

Lemma insert_perm (x : A) (l : list A) : Permutation (insert key x l) (x :: l).
Proof.
  induction l as [|y l IH]; simpl; [reflexivity|].
  destruct (String.ltb (key y) (key x)); [|reflexivity].
  rewrite IH. apply perm_swap.
Qed.

Lemma stable_sort_perm (l : list A) : Permutation (stable_sort key l) l.
Proof.
  induction l as [|x l IH]; simpl; [reflexivity|].
  rewrite insert_perm. now constructor.
Qed.

Lemma insert_hdrel (a x : A) (l : list A) :
  asc key a x -> HdRel (asc key) a l -> HdRel (asc key) a (insert key x l).
Proof.
  intros Hax Hl. destruct l as [|y l]; simpl.
  - now constructor.
  - destruct (String.ltb (key y) (key x)); constructor.
    + now inversion Hl.
    + exact Hax.
Qed.

Lemma insert_sorted (x : A) (l : list A) :
  Sorted (asc key) l -> Sorted (asc key) (insert key x l).
Proof.
  induction l as [|y l IH]; simpl; intros Hs.
  - repeat constructor.
  - destruct (String.ltb (key y) (key x)) eqn:E.
    + inversion Hs as [|? ? Hs' Hh]; subst. constructor; [now apply IH|].
      apply insert_hdrel; [|exact Hh].
      unfold asc. apply ltb_false_leb.
      destruct (String.ltb (key x) (key y)) eqn:F; [|reflexivity].
      pose proof (ltb_trans _ _ _ E F) as G. now rewrite ltb_irrefl in G.
    + constructor; [exact Hs|]. constructor. unfold asc.
      now apply ltb_false_leb.
Qed.

Lemma stable_sort_sorted (l : list A) : StronglySorted (asc key) (stable_sort key l).
Proof.
  apply Sorted_StronglySorted; [exact asc_trans|].
  induction l as [|x l IH]; simpl; [constructor|now apply insert_sorted].
Qed.

Lemma StronglySorted_snoc (R : A -> A -> Prop) (l : list A) (a : A) :
  StronglySorted R l -> Forall (fun x => R x a) l -> StronglySorted R (l ++ [a]).
Proof.
  induction 1 as [|x l Hs IH Hx]; simpl; intros Hall.
  - repeat constructor.
  - inversion Hall; subst. constructor; [now apply IH|].
    apply Forall_app. split; [exact Hx|]. now repeat constructor.
Qed.

Lemma StronglySorted_rev (l : list A) :
  StronglySorted (asc key) l -> StronglySorted (desc key) (rev l).
Proof.
  induction 1 as [|x l Hs IH Hx]; simpl; [constructor|].
  apply StronglySorted_snoc; [exact IH|].
  apply Forall_rev. exact Hx.
Qed.

Lemma StronglySorted_firstn (R : A -> A -> Prop) (n : nat) (l : list A) :
  StronglySorted R l -> StronglySorted R (firstn n l).
Proof.
  intros Hs. revert n. induction Hs as [|x l Hs IH Hx]; intros [|n]; simpl;
    try constructor; [apply IH|].
  rewrite Forall_forall in *. intros y Hy. apply Hx.
  rewrite <- (firstn_skipn n l). apply in_or_app. now left.
Qed.

(** Stability: the elements carrying one key keep their relative order. *)
Lemma insert_stable (k : string) (x : A) (l : list A) :
  filter (has_key key k) (insert key x l) = filter (has_key key k) (x :: l).
Proof.
  induction l as [|y l IH]; [reflexivity|].
  simpl insert. destruct (String.ltb (key y) (key x)) eqn:E; [|reflexivity].
  change (filter (has_key key k) (y :: insert key x l))
    with (if has_key key k y then y :: filter (has_key key k) (insert key x l)
          else filter (has_key key k) (insert key x l)).
  rewrite IH. simpl. unfold has_key.
  destruct (String.eqb_spec (key y) k) as [Hy|Hy];
    destruct (String.eqb_spec (key x) k) as [Hx|Hx]; try reflexivity.
  rewrite Hy, Hx, ltb_irrefl in E. discriminate E.
Qed.

Lemma stable_sort_stable (k : string) (l : list A) :
  filter (has_key key k) (stable_sort key l) = filter (has_key key k) l.
Proof.
  induction l as [|x l IH]; [reflexivity|].
  simpl stable_sort. rewrite insert_stable. simpl. now rewrite IH.
Qed.

Lemma filter_rev (p : A -> bool) (l : list A) :
  filter p (rev l) = rev (filter p l).
Proof.
  induction l as [|x l IH]; [reflexivity|].
  simpl. rewrite filter_app, IH. simpl.
  destruct (p x); simpl; [reflexivity|now rewrite app_nil_r].
Qed.

Lemma sort_reverse_stable (k : string) (l : list A) :
  filter (has_key key k) (sort_reverse key l) = filter (has_key key k) l.
Proof.
  unfold sort_reverse.
  now rewrite filter_rev, stable_sort_stable, filter_rev, rev_involutive.
Qed.

Lemma sort_reverse_sorted (l : list A) :
  StronglySorted (desc key) (sort_reverse key l).
Proof. apply StronglySorted_rev, stable_sort_sorted. Qed.

Lemma sort_reverse_perm (l : list A) : Permutation (sort_reverse key l) l.
Proof.
  unfold sort_reverse. rewrite <- Permutation_rev, stable_sort_perm.
  symmetry. apply Permutation_rev.
Qed.
End SortFacts.


(** ** Facts about dictionaries *)

Section DictFacts.
Variable V : Type.
Implicit Types (d : dict V) (k : string) (v : V).

Lemma dict_get_set_same k v d : dict_get k (dict_set k v d) = Some v.
Proof.
  induction d as [|[k' v'] d IH]; simpl.
  - now rewrite String.eqb_refl.
  - destruct (String.eqb k k') eqn:E; simpl; rewrite ?String.eqb_refl, ?E; auto.
Qed.

Lemma dict_get_set_other k k' v d :
  k <> k' -> dict_get k' (dict_set k v d) = dict_get k' d.
Proof.
  intros Hne. induction d as [|[k0 v0] d IH]; simpl.
  - destruct (String.eqb_spec k' k); [congruence|reflexivity].
  - destruct (String.eqb_spec k k0) as [->|Hk]; simpl.
    + destruct (String.eqb_spec k' k0); [congruence|reflexivity].
    + destruct (String.eqb k' k0); [reflexivity|exact IH].
Qed.

Lemma dict_set_set k v v' d : dict_set k v (dict_set k v' d) = dict_set k v d.
Proof.
  induction d as [|[k0 v0] d IH]; simpl.
  - now rewrite String.eqb_refl.
  - destruct (String.eqb k k0) eqn:E; simpl; rewrite ?String.eqb_refl, ?E;
      [reflexivity|now rewrite IH].
Qed.

Lemma dict_mem_set_same k v d : dict_mem k (dict_set k v d) = true.
Proof. unfold dict_mem. now rewrite dict_get_set_same. Qed.

Lemma dict_get_set k k' v d :
  dict_get k' (dict_set k v d) = if String.eqb k' k then Some v else dict_get k' d.
Proof.
  destruct (String.eqb_spec k' k) as [->|Hne].
  - apply dict_get_set_same.
  - apply dict_get_set_other. congruence.
Qed.
End DictFacts.

(** ** Facts about the log *)

Lemma new_effects_app (w w' : World) (effects : list Effect) :
  log w' = effects ++ log w -> new_effects w w' = rev effects.
Proof.
  intros H. unfold new_effects. rewrite H, length_app.
  replace (List.length effects + List.length (log w) - List.length (log w))%nat
    with (List.length effects + 0)%nat by lia.
  rewrite firstn_app_2. simpl. now rewrite app_nil_r.
Qed.

Lemma quiet_log_trans (P : PostRequest -> Prop) (a b c : list Effect) :
  quiet_log P a b -> quiet_log P b c -> quiet_log P a c.
Proof. intros Hab Hbc. induction Hbc; auto using quiet_log. Qed.

Lemma quiet_log_app (P : PostRequest -> Prop) (a b : list Effect) :
  quiet_log P a b ->
  exists effects,
    b = effects ++ a /\ snapshots (rev effects) = []
    /\ Forall P (requests (rev effects)).
Proof.
  unfold snapshots, requests.
  induction 1 as [|q l _ [es [-> [Hs Hr]]]|r l Hr0 _ [es [-> [Hs Hr]]]
                 |p d l _ [es [-> [Hs Hr]]]].
  - exists []. repeat split. constructor.
  - exists (Sleep q :: es). simpl. rewrite !flat_map_app, Hs. simpl.
    rewrite app_nil_r. auto.
  - exists (Post r :: es). simpl. rewrite !flat_map_app, Hs. simpl.
    repeat split. apply Forall_app. split; [exact Hr|now repeat constructor].
  - exists (FileWrite p d :: es). simpl. rewrite !flat_map_app, Hs. simpl.
    rewrite app_nil_r. auto.
Qed.

Lemma quiet_refl (P : PostRequest -> Prop) (w : World) : quiet P w w.
Proof. split; [reflexivity|constructor]. Qed.

Lemma quiet_trans (P : PostRequest -> Prop) (w1 w2 w3 : World) :
  quiet P w1 w2 -> quiet P w2 w3 -> quiet P w1 w3.
Proof.
  intros [G1 L1] [G2 L2]. split; [congruence|]. eapply quiet_log_trans; eauto.
Qed.

Lemma quiet_wrote (P : PostRequest -> Prop) (generation_id : string)
    (f : VideoGeneration -> VideoGeneration) (w1 w2 w3 : World) :
  quiet P w1 w2 -> wrote P generation_id f w2 w3 -> wrote P generation_id f w1 w3.
Proof.
  intros [G1 L1] (g & l & Hg & Hs & Hl & Hlog).
  exists g, l. rewrite <- G1. repeat split; auto.
  eapply quiet_log_trans; eauto.
Qed.

(** ** The steps of the controller *)

Section Steps.
Variable P : PostRequest -> Prop.
Variable env : Env.
Variable generation_id : string.

Lemma log_effect_sleep_quiet (q : Q) (w : World) :
  quiet P w (log_effect (Sleep q) w).
Proof. split; [reflexivity|]. simpl. repeat constructor. Qed.

(** The wait after a 503 always ends, after exactly one sleep. *)
Lemma wait_for_model_sleeps (response : Response) (retry_delay : Q) (w : World) :
  exists seconds,
    wait_for_model response retry_delay w = (Ok tt, log_effect (Sleep seconds) w)
    /\ (no_estimated_time response -> seconds = retry_delay).
Proof.
  unfold wait_for_model, try_except, bind, response_json, no_estimated_time.
  destruct (json_body response) as [[ |b|q|s|items|members]|]; simpl;
    try (exists retry_delay; split; [reflexivity|auto]; fail).
  destruct (dict_get "estimated_time" members) as [[ |b|q|s|items|members']|];
    simpl; try (exists retry_delay; split; [reflexivity|auto]; fail).
  - exists (if b then 1 else 0). split; [reflexivity|discriminate].
  - destruct (Qle_bool 0 q); simpl.
    + exists q. split; [reflexivity|discriminate].
    + exists retry_delay. split; [reflexivity|discriminate].
  - destruct (Qle_bool 0 retry_delay) eqn:E; simpl;
      exists retry_delay; split; reflexivity || auto.
Qed.

(** A status other than 200 raises and touches nothing. *)
Lemma fail_with_status_raises (response : Response) (w : World) :
  exists detail,
    fail_with_status response w
    = (Raise (Exception (ApiRequestFailed (status_code response) detail)), w).
Proof.
  unfold fail_with_status, try_except, bind, response_json.
  destruct (json_body response) as [[ |b|q|s|items|members]|]; simpl;
    eexists; reflexivity.
Qed.

(** The content check touches nothing. *)
Lemma check_video_content_pure (response : Response) (w : World) :
  snd (check_video_content response w) = w.
Proof.
  unfold check_video_content, try_except, bind, response_json.
  destruct (negb _ && negb _); [|reflexivity].
  destruct (json_body response); simpl; [reflexivity|].
  destruct (_ <? _)%nat; reflexivity.
Qed.

Lemma check_video_content_accepts (response : Response) (w : World) :
  video_content_type response = true ->
  check_video_content response w = (Ok tt, w).
Proof.
  unfold video_content_type, check_video_content. intros H.
  rewrite <- negb_orb, H. reflexivity.
Qed.

(** What saving the response can do. *)
Lemma save_video_cases (response : Response) (w : World) :
  match save_video env generation_id response w with
  | (Ok _, w') =>
      wrote P generation_id
        (update_status_videoUrl completed (video_url_of generation_id)) w w'
  | (Raise _, w') => quiet P w w'
  end.
Proof.
  unfold save_video, bind, write_file, os_path_exists, os_path_getsize.
  destruct (writable env _); [|apply quiet_refl].
  cbn [files]. rewrite dict_mem_set_same. cbn [negb files].
  rewrite dict_get_set_same. unfold ret, raise.
  destruct (_ =? 0)%nat.
  - split; [reflexivity|]. simpl. repeat constructor.
  - unfold update_generation, bind, store_lookup, store_write. cbn [generations].
    destruct (dict_get generation_id (generations w)) as [g|] eqn:Hg.
    + exists g. eexists. cbn [generations log].
      split; [exact Hg|]. split; [reflexivity|]. apply and_comm.
      split; [reflexivity|]. repeat constructor.
    + split; [reflexivity|]. simpl. repeat constructor.
Qed.

Lemma requests_post_quiet (request : PostRequest) (w : World) :
  P request -> quiet P w (snd (requests_post request w)).
Proof.
  intros HP. unfold requests_post.
  destruct (network w) as [|[r|reason] rest]; simpl;
    (split; [reflexivity|]); simpl; now repeat constructor.
Qed.

(** One iteration either asks for another one, which it does only before
    the last attempt, or completes the job, or raises. *)
Lemma attempt_body_cases (request : PostRequest) (attempt : nat)
    (retry_delay : Q) (w : World) :
  P request ->
  match attempt_body env generation_id request attempt retry_delay w with
  | (Ok (Continue _), w') => quiet P w w' /\ (attempt < max_retries - 1)%nat
  | (Ok Return, w') =>
      wrote P generation_id
        (update_status_videoUrl completed (video_url_of generation_id)) w w'
  | (Raise _, w') => quiet P w w'
  end.
Proof.
  intros HP. unfold attempt_body. unfold bind at 1.
  pose proof (requests_post_quiet request w HP) as Hq.
  destruct (requests_post request w) as [[response|e] w1]; [|exact Hq].
  cbn [snd] in Hq. unfold bind at 1.
  assert (exists w2 again,
    (if (status_code response =? 503)%Z
     then wait_for_model response retry_delay ;;
          ret (attempt <? max_retries - 1)%nat
     else ret false) w1 = (Ok again, w2)
    /\ quiet P w w2
    /\ (again = true -> (attempt < max_retries - 1)%nat)) as (w2 & again & -> & Hq2 & Hagain).
  { destruct (status_code response =? 503)%Z.
    - destruct (wait_for_model_sleeps response retry_delay w1) as (x & Hw & _).
      unfold bind. rewrite Hw. unfold ret. do 2 eexists.
      split; [reflexivity|]. split.
      + eapply quiet_trans; [exact Hq|apply log_effect_sleep_quiet].
      + apply Nat.ltb_lt.
    - exists w1, false. split; [reflexivity|]. split; [exact Hq|discriminate]. }
  destruct again.
  - split; [exact Hq2|auto].
  - destruct (negb _).
    + destruct (fail_with_status_raises response w2) as (detail & Hf).
      unfold bind. rewrite Hf. exact Hq2.
    + unfold bind at 1.
      pose proof (check_video_content_pure response w2) as Hc.
      destruct (check_video_content response w2) as [[[]|e] w3];
        cbn [snd] in Hc; subst w3; [|exact Hq2].
      unfold bind at 1.
      pose proof (save_video_cases response w2) as Hs.
      destruct (save_video env generation_id response w2) as [[[]|e] w4].
      * eapply quiet_wrote; eauto.
      * eapply quiet_trans; eauto.
Qed.

Lemma attempt_once_cases (request : PostRequest) (attempt : nat)
    (retry_delay : Q) (w : World) :
  P request ->
  match attempt_once env generation_id request attempt retry_delay w with
  | (Ok (Continue _), w') => quiet P w w' /\ (attempt < max_retries - 1)%nat
  | (Ok Return, w') =>
      wrote P generation_id
        (update_status_videoUrl completed (video_url_of generation_id)) w w'
  | (Raise _, w') => quiet P w w'
  end.
Proof.
  intros HP. unfold attempt_once, try_except.
  pose proof (attempt_body_cases request attempt retry_delay w HP) as Hb.
  destruct (attempt_body env generation_id request attempt retry_delay w)
    as [[[d|]|e] w1]; try exact Hb.
  destruct e; unfold except_RequestException; try exact Hb.
  destruct (attempt <? max_retries - 1)%nat eqn:E; [|exact Hb].
  unfold bind, time_sleep, ret. split; [|now apply Nat.ltb_lt].
  eapply quiet_trans; [exact Hb|apply log_effect_sleep_quiet].
Qed.

(** The loop completes the job, or raises, or runs out of attempts, which
    it can only do when none of them is the last one. *)
Lemma retry_loop_cases (request : PostRequest) (attempts : list nat)
    (retry_delay : Q) (w : World) :
  P request ->
  match retry_loop env generation_id request attempts retry_delay w with
  | (Ok _, w') =>
      wrote P generation_id
        (update_status_videoUrl completed (video_url_of generation_id)) w w'
      \/ (quiet P w w'
          /\ Forall (fun attempt => (attempt < max_retries - 1)%nat) attempts)
  | (Raise _, w') => quiet P w w'
  end.
Proof.
  intros HP. revert retry_delay w.
  induction attempts as [|attempt rest IH]; intros retry_delay w.
  - simpl. right. split; [apply quiet_refl|constructor].
  - cbn [retry_loop]. unfold bind.
    pose proof (attempt_once_cases request attempt retry_delay w HP) as Ha.
    destruct (attempt_once env generation_id request attempt retry_delay w)
      as [[[d|]|e] w1]; [|left; exact Ha|exact Ha].
    destruct Ha as [Hq Hlt]. specialize (IH d w1).
    destruct (retry_loop env generation_id request rest d w1) as [[[]|e] w2].
    + destruct IH as [Hw|[Hq2 Hall]].
      * left. eapply quiet_wrote; eauto.
      * right. split; [eapply quiet_trans; eauto|now constructor].
    + eapply quiet_trans; eauto.
Qed.
End Steps.

(** ** The controller as a whole *)

Section Controller.
Variable env : Env.
Variable generation_id : string.

Lemma set_status_present (s : Status) (g : VideoGeneration) (w : World) :
  dict_get generation_id (generations w) = Some g ->
  set_status generation_id s w
  = (Ok tt,
     {| generations := dict_set generation_id (with_status s g) (generations w);
        files := files w; network := network w;
        log := StoreWrite
                 (dict_set generation_id (with_status s g) (generations w))
               :: log w |}).
Proof.
  intros Hg. unfold set_status, bind, store_lookup, store_write.
  now rewrite Hg.
Qed.

Lemma update_generation_present (s : Status) (u : string)
    (g : VideoGeneration) (w : World) :
  dict_get generation_id (generations w) = Some g ->
  update_generation generation_id s u w
  = (Ok tt,
     {| generations :=
          dict_set generation_id (update_status_videoUrl s u g) (generations w);
        files := files w; network := network w;
        log := StoreWrite
                 (dict_set generation_id (update_status_videoUrl s u g)
                    (generations w))
               :: log w |}).
Proof.
  intros Hg. unfold update_generation, bind, store_lookup, store_write.
  now rewrite Hg.
Qed.

Lemma set_status_started (g : VideoGeneration) (w : World) :
  dict_get generation_id (generations w) = Some g ->
  set_status generation_id processing w = (Ok tt, started generation_id g w).
Proof. apply set_status_present. Qed.

Lemma started_record (g : VideoGeneration) (w : World) :
  dict_get generation_id (generations (started generation_id g w))
  = Some (with_status processing g).
Proof. apply dict_get_set_same. Qed.

(** The handler of an [except Exception] clause after a quiet run. *)
Lemma fail_after_quiet (P : PostRequest -> Prop) (g : VideoGeneration)
    (w w1 : World) :
  dict_get generation_id (generations w) = Some g ->
  quiet P w w1 ->
  exists w2,
    set_status generation_id failed w1 = (Ok tt, w2)
    /\ wrote P generation_id (with_status failed) w w2.
Proof.
  intros Hg [Hgen Hlog]. eexists. split.
  - apply set_status_present. rewrite Hgen. exact Hg.
  - exists g. eexists. cbn [generations log]. rewrite Hgen.
    split; [exact Hg|]. split; [reflexivity|]. split; [exact Hlog|reflexivity].
Qed.

Lemma mock_body_cases (P : PostRequest -> Prop) (w : World) :
  match mock_body env generation_id w with
  | (Ok _, w') =>
      wrote P generation_id
        (update_status_videoUrl completed (video_url_of generation_id)) w w'
  | (Raise _, w') => quiet P w w'
  end.
Proof.
  unfold mock_body, bind, time_sleep, write_file, log_effect.
  destruct (writable env _).
  - unfold update_generation, bind, store_lookup, store_write.
    cbn [generations files network log].
    destruct (dict_get generation_id (generations w)) as [g|] eqn:Hg.
    + exists g. eexists. cbn [generations log].
      split; [exact Hg|]. split; [reflexivity|]. apply and_comm.
      split; [reflexivity|]. repeat constructor.
    + split; [reflexivity|]. cbn [log]. repeat constructor.
  - split; [reflexivity|]. cbn [log]. repeat constructor.
Qed.

Lemma mock_video_generation_cases (P : PostRequest -> Prop)
    (g : VideoGeneration) (w : World) :
  dict_get generation_id (generations w) = Some g ->
  exists w',
    mock_video_generation env generation_id w = (Ok tt, w')
    /\ (wrote P generation_id
          (update_status_videoUrl completed (video_url_of generation_id)) w w'
        \/ wrote P generation_id (with_status failed) w w').
Proof.
  intros Hg. unfold mock_video_generation, try_except.
  pose proof (mock_body_cases P w) as Hb.
  destruct (mock_body env generation_id w) as [[[]|e] w1].
  - eauto.
  - cbn [except_all].
    destruct (fail_after_quiet P g w w1 Hg Hb) as (w2 & -> & Hw). eauto.
Qed.

(** Once the job is claimed, the rest of the body completes the job, or
    fails it and returns, or raises without having written the store. *)
Lemma process_claimed_cases (g : VideoGeneration) (w : World) :
  dict_get generation_id (generations w) = Some g ->
  match process_claimed env generation_id w with
  | (Ok _, w') =>
      wrote (frames_of g) generation_id
        (update_status_videoUrl completed (video_url_of generation_id)) w w'
      \/ wrote (frames_of g) generation_id (with_status failed) w w'
  | (Raise _, w') => quiet (frames_of g) w w'
  end.
Proof.
  intros Hg. unfold process_claimed. unfold bind at 1.
  unfold store_lookup at 1. rewrite Hg.
  destruct (negb (truthy (HF_TOKEN env))).
  - destruct (mock_video_generation_cases (frames_of g) g w Hg)
      as (w' & Hm & Hw).
    rewrite Hm. exact Hw.
  - unfold bind at 1, os_path_exists at 1.
    destruct (dict_mem _ (files w)) eqn:Hmem; cbn [negb].
    + unfold bind at 1, read_file. unfold dict_mem in Hmem.
      destruct (dict_get _ (files w)) as [image_data|]; [|discriminate].
      match goal with
      | |- context [retry_loop env generation_id ?r ?a ?d w] =>
          pose proof (retry_loop_cases (frames_of g) env generation_id r a d w
                        eq_refl) as Hl;
          destruct (retry_loop env generation_id r a d w) as [[[]|e] w']
      end.
      * destruct Hl as [Hw|[_ Hall]]; [now left|].
        exfalso. unfold max_retries in Hall. cbn in Hall.
        inversion Hall as [|? ? _ H1]; subst.
        inversion H1 as [|? ? _ H2]; subst.
        inversion H2 as [|? ? H3 _]; subst. lia.
      * exact Hl.
    + apply quiet_refl.
Qed.

(** A claimed job is always completed or failed, and nothing is raised. *)
Lemma resume_claimed_cases (g : VideoGeneration) (w : World) :
  dict_get generation_id (generations w) = Some g ->
  exists w',
    resume_claimed env generation_id w = (Ok tt, w')
    /\ (wrote (frames_of g) generation_id
          (update_status_videoUrl completed (video_url_of generation_id)) w w'
        \/ wrote (frames_of g) generation_id (with_status failed) w w').
Proof.
  intros Hg. unfold resume_claimed, try_except.
  pose proof (process_claimed_cases g w Hg) as Hb.
  destruct (process_claimed env generation_id w) as [[[]|e] w1].
  - eauto.
  - cbn [except_all].
    destruct (fail_after_quiet _ g w w1 Hg Hb) as (w2 & -> & Hw). eauto.
Qed.

(** The controller is its first statement followed by the rest. *)
Lemma process_video_generation_split (g : VideoGeneration) (w : World) :
  dict_get generation_id (generations w) = Some g ->
  process_video_generation env generation_id w
  = resume_claimed env generation_id (started generation_id g w).
Proof.
  intros Hg. unfold process_video_generation, resume_claimed, try_except.
  unfold process_body, bind. rewrite (set_status_started g w Hg). reflexivity.
Qed.

Lemma process_body_cases (g : VideoGeneration) (w : World) :
  dict_get generation_id (generations w) = Some g ->
  let w0 := started generation_id g w in
  match process_body env generation_id w with
  | (Ok _, w') =>
      wrote (frames_of g) generation_id
        (update_status_videoUrl completed (video_url_of generation_id)) w0 w'
      \/ wrote (frames_of g) generation_id (with_status failed) w0 w'
  | (Raise _, w') => quiet (frames_of g) w0 w'
  end.
Proof.
  intros Hg w0. unfold process_body, bind.
  rewrite (set_status_started g w Hg). fold w0.
  exact (process_claimed_cases (with_status processing g) w0
           (started_record g w)).
Qed.

(** The controller never raises on a job of the store, and leaves it
    completed or failed. *)
Lemma process_video_generation_cases (g : VideoGeneration) (w : World) :
  dict_get generation_id (generations w) = Some g ->
  let w0 := started generation_id g w in
  exists w',
    process_video_generation env generation_id w = (Ok tt, w')
    /\ (wrote (frames_of g) generation_id
          (update_status_videoUrl completed (video_url_of generation_id)) w0 w'
        \/ wrote (frames_of g) generation_id (with_status failed) w0 w').
Proof.
  intros Hg w0. unfold process_video_generation, try_except.
  pose proof (process_body_cases g w Hg) as Hb. fold w0 in Hb.
  destruct (process_body env generation_id w) as [[[]|e] w1].
  - eauto.
  - cbn [except_all].
    destruct (fail_after_quiet _ _ w0 w1 (started_record g w) Hb)
      as (w2 & -> & Hw).
    eauto.
Qed.
End Controller.

(** ** The controller against given answers of the network *)

Section Answers.
Variable env : Env.
Variable generation_id : string.
Variable request : PostRequest.

Lemma requests_post_answered (r : Response) (rest : list PostResult) (w : World) :
  network w = Responded r :: rest ->
  requests_post request w = (Ok r, answered request rest w).
Proof. intros H. unfold requests_post. now rewrite H. Qed.

(** A 503 before the last attempt: one sleep, then [continue]. *)
Lemma attempt_once_loading (attempt : nat) (retry_delay : Q) (r : Response)
    (rest : list PostResult) (w : World) :
  status_code r = 503%Z ->
  (attempt <? max_retries - 1)%nat = true ->
  network w = Responded r :: rest ->
  exists seconds,
    attempt_once env generation_id request attempt retry_delay w
    = (Ok (Continue (Qred (retry_delay * (3 # 2)))),
       log_effect (Sleep seconds) (answered request rest w))
    /\ (no_estimated_time r -> seconds = retry_delay).
Proof.
  intros Hcode Hlt Hnet.
  destruct (wait_for_model_sleeps r retry_delay (answered request rest w))
    as (seconds & Hw & Hs).
  exists seconds. split; [|exact Hs].
  unfold attempt_once, try_except, attempt_body. unfold bind at 1.
  rewrite (requests_post_answered r rest w Hnet). unfold bind at 1.
  rewrite Hcode. cbn [Z.eqb Pos.eqb]. unfold bind at 1. rewrite Hw.
  unfold ret at 1. rewrite Hlt. reflexivity.
Qed.

(** A 503 at the last attempt: one sleep, then the status raises. *)
Lemma attempt_once_loading_last (attempt : nat) (retry_delay : Q)
    (r : Response) (rest : list PostResult) (w : World) :
  status_code r = 503%Z ->
  (attempt <? max_retries - 1)%nat = false ->
  network w = Responded r :: rest ->
  exists seconds detail,
    attempt_once env generation_id request attempt retry_delay w
    = (Raise (Exception (ApiRequestFailed 503 detail)),
       log_effect (Sleep seconds) (answered request rest w)).
Proof.
  intros Hcode Hlt Hnet.
  destruct (wait_for_model_sleeps r retry_delay (answered request rest w))
    as (seconds & Hw & _).
  destruct (fail_with_status_raises r
              (log_effect (Sleep seconds) (answered request rest w)))
    as (detail & Hf).
  exists seconds, detail.
  unfold attempt_once, try_except, attempt_body. unfold bind at 1.
  rewrite (requests_post_answered r rest w Hnet). unfold bind at 1.
  rewrite Hcode. cbn [Z.eqb Pos.eqb]. unfold bind at 1. rewrite Hw.
  unfold ret at 1. rewrite Hlt. cbn [negb]. unfold bind at 1.
  rewrite Hf, Hcode. reflexivity.
Qed.

Lemma save_video_saved (r : Response) (g : VideoGeneration) (w : World) :
  content r <> [] ->
  writable env (video_path_of generation_id) = true ->
  dict_get generation_id (generations w) = Some g ->
  save_video env generation_id r w
  = (Ok tt, saved generation_id g (content r) w).
Proof.
  intros Hne Hw Hg.
  unfold save_video, bind, write_file, os_path_exists, os_path_getsize.
  fold (video_path_of generation_id). rewrite Hw.
  cbn [files]. rewrite dict_mem_set_same. cbn [negb files].
  rewrite dict_get_set_same. unfold ret.
  destruct (content r) as [|b data] eqn:Hc; [congruence|].
  cbn [List.length Nat.eqb].
  unfold update_generation, bind, store_lookup, store_write.
  cbn [generations]. rewrite Hg. reflexivity.
Qed.

(** A 200 whose content passes the check and can be saved: [return]. *)
Lemma attempt_once_video (attempt : nat) (retry_delay : Q) (r : Response)
    (rest : list PostResult) (g : VideoGeneration) (w : World) :
  status_code r = 200%Z ->
  check_video_content r (answered request rest w)
  = (Ok tt, answered request rest w) ->
  content r <> [] ->
  writable env (video_path_of generation_id) = true ->
  dict_get generation_id (generations w) = Some g ->
  network w = Responded r :: rest ->
  attempt_once env generation_id request attempt retry_delay w
  = (Ok Return, saved generation_id g (content r) (answered request rest w)).
Proof.
  intros Hcode Hcheck Hne Hw Hg Hnet.
  unfold attempt_once, try_except, attempt_body. unfold bind at 1.
  rewrite (requests_post_answered r rest w Hnet). unfold bind at 1.
  rewrite Hcode. cbn [Z.eqb Pos.eqb negb]. unfold ret at 1. cbv iota.
  unfold bind at 1. rewrite Hcheck. unfold bind at 1.
  rewrite (save_video_saved r g (answered request rest w) Hne Hw Hg).
  reflexivity.
Qed.

(** A 200 whose content fails the check: the check's exception. *)
Lemma attempt_once_rejected (attempt : nat) (retry_delay : Q) (r : Response)
    (rest : list PostResult) (msg : Message) (w : World) :
  status_code r = 200%Z ->
  check_video_content r (answered request rest w)
  = (Raise (Exception msg), answered request rest w) ->
  network w = Responded r :: rest ->
  attempt_once env generation_id request attempt retry_delay w
  = (Raise (Exception msg), answered request rest w).
Proof.
  intros Hcode Hcheck Hnet.
  unfold attempt_once, try_except, attempt_body. unfold bind at 1.
  rewrite (requests_post_answered r rest w Hnet). unfold bind at 1.
  rewrite Hcode. cbn [Z.eqb Pos.eqb negb]. unfold ret at 1. cbv iota.
  unfold bind at 1. rewrite Hcheck. reflexivity.
Qed.

Lemma check_video_content_too_small (r : Response) (w : World) :
  video_content_type r = false ->
  json_body r = None ->
  (List.length (content r) < 1000)%nat ->
  check_video_content r w
  = (Raise (Exception (ResponseTooSmall (List.length (content r)))), w).
Proof.
  unfold video_content_type, check_video_content. intros Hct Hj Hlen.
  rewrite <- negb_orb, Hct. cbn [negb].
  unfold try_except, bind, response_json. rewrite Hj.
  unfold raise at 1. unfold except_JSONDecodeError.
  apply Nat.ltb_lt in Hlen. rewrite Hlen. reflexivity.
Qed.

Lemma check_video_content_large (r : Response) (w : World) :
  video_content_type r = false ->
  json_body r = None ->
  (1000 <= List.length (content r))%nat ->
  check_video_content r w = (Ok tt, w).
Proof.
  unfold video_content_type, check_video_content. intros Hct Hj Hlen.
  rewrite <- negb_orb, Hct. cbn [negb].
  unfold try_except, bind, response_json. rewrite Hj.
  unfold raise at 1. unfold except_JSONDecodeError.
  apply Nat.ltb_ge in Hlen. rewrite Hlen. reflexivity.
Qed.
End Answers.

Section Scenarios.
Variable env : Env.
Variable generation_id : string.

(** With a token and the image on disk, the controller claims the job and
    enters the loop. *)
Lemma process_body_with_token (g : VideoGeneration) (image_data : list byte)
    (w : World) :
  truthy (HF_TOKEN env) = true ->
  dict_get generation_id (generations w) = Some g ->
  dict_get (image_path_of g) (files w) = Some image_data ->
  process_body env generation_id w
  = retry_loop env generation_id
      (svd_request (token_of env) (with_status processing g) image_data)
      (seq 0 max_retries) 20 (started generation_id g w).
Proof.
  intros Htok Hg Hfile. unfold process_body. unfold bind at 1.
  rewrite (set_status_started generation_id g w Hg).
  unfold process_claimed. unfold bind at 1.
  unfold store_lookup at 1. rewrite started_record. rewrite Htok. cbn [negb].
  cbn [characterImageUrl with_status]. fold (image_path_of g).
  unfold bind at 1, os_path_exists at 1, dict_mem.
  change (files (started generation_id g w)) with (files w).
  rewrite Hfile. cbn [negb].
  unfold bind at 1, read_file.
  change (files (started generation_id g w)) with (files w).
  rewrite Hfile. reflexivity.
Qed.

(** Three 503 answers in a row. *)
Lemma run_always_loading (g : VideoGeneration) (image_data : list byte)
    (r1 r2 r3 : Response) (rest : list PostResult) (w : World) :
  truthy (HF_TOKEN env) = true ->
  dict_get generation_id (generations w) = Some g ->
  dict_get (image_path_of g) (files w) = Some image_data ->
  network w = Responded r1 :: Responded r2 :: Responded r3 :: rest ->
  status_code r1 = 503%Z -> status_code r2 = 503%Z -> status_code r3 = 503%Z ->
  let request :=
    svd_request (token_of env) (with_status processing g) image_data in
  exists s1 s2 s3 detail,
    process_body env generation_id w
    = (Raise (Exception (ApiRequestFailed 503 detail)),
       log_effect (Sleep s3) (answered request rest
         (log_effect (Sleep s2) (answered request (Responded r3 :: rest)
           (log_effect (Sleep s1)
              (answered request (Responded r2 :: Responded r3 :: rest)
                 (started generation_id g w))))))).
Proof.
  intros Htok Hg Hfile Hnet H1 H2 H3 request.
  rewrite (process_body_with_token g image_data w Htok Hg Hfile).
  fold request. unfold max_retries at 1. cbn [seq retry_loop].
  destruct (attempt_once_loading env generation_id request 0 20 r1
              (Responded r2 :: Responded r3 :: rest)
              (started generation_id g w) H1 eq_refl Hnet) as (s1 & E1 & _).
  unfold bind at 1. rewrite E1.
  destruct (attempt_once_loading env generation_id request 1
              (Qred (20 * (3 # 2))) r2 (Responded r3 :: rest)
              (log_effect (Sleep s1)
                 (answered request (Responded r2 :: Responded r3 :: rest)
                    (started generation_id g w))) H2 eq_refl eq_refl)
    as (s2 & E2 & _).
  unfold bind at 1. rewrite E2.
  destruct (attempt_once_loading_last env generation_id request 2
              (Qred (Qred (20 * (3 # 2)) * (3 # 2))) r3 rest
              (log_effect (Sleep s2)
                 (answered request (Responded r3 :: rest)
                    (log_effect (Sleep s1)
                       (answered request (Responded r2 :: Responded r3 :: rest)
                          (started generation_id g w))))) H3 eq_refl eq_refl)
    as (s3 & detail & E3).
  unfold bind at 1. rewrite E3.
  exists s1, s2, s3, detail. reflexivity.
Qed.

(** Two 503 answers that name no waiting time, then a video. *)
Lemma run_loading_twice (g : VideoGeneration) (image_data : list byte)
    (r1 r2 r3 : Response) (rest : list PostResult) (w : World) :
  truthy (HF_TOKEN env) = true ->
  dict_get generation_id (generations w) = Some g ->
  dict_get (image_path_of g) (files w) = Some image_data ->
  network w = Responded r1 :: Responded r2 :: Responded r3 :: rest ->
  status_code r1 = 503%Z -> no_estimated_time r1 ->
  status_code r2 = 503%Z -> no_estimated_time r2 ->
  status_code r3 = 200%Z -> video_content_type r3 = true ->
  content r3 <> [] ->
  writable env (video_path_of generation_id) = true ->
  let request :=
    svd_request (token_of env) (with_status processing g) image_data in
  process_body env generation_id w
  = (Ok tt,
     saved generation_id (with_status processing g) (content r3)
       (answered request rest
         (log_effect (Sleep 30) (answered request (Responded r3 :: rest)
           (log_effect (Sleep 20)
              (answered request (Responded r2 :: Responded r3 :: rest)
                 (started generation_id g w))))))).
Proof.
  intros Htok Hg Hfile Hnet H1 N1 H2 N2 H3 Hct Hne Hw request.
  rewrite (process_body_with_token g image_data w Htok Hg Hfile).
  fold request. unfold max_retries at 1. cbn [seq retry_loop].
  destruct (attempt_once_loading env generation_id request 0 20 r1
              (Responded r2 :: Responded r3 :: rest)
              (started generation_id g w) H1 eq_refl Hnet) as (s1 & E1 & S1).
  rewrite (S1 N1) in E1. clear S1 s1.
  unfold bind at 1. rewrite E1.
  change (Qred (20 * (3 # 2))) with 30%Q.
  destruct (attempt_once_loading env generation_id request 1 30 r2
              (Responded r3 :: rest)
              (log_effect (Sleep 20)
                 (answered request (Responded r2 :: Responded r3 :: rest)
                    (started generation_id g w))) H2 eq_refl eq_refl)
    as (s2 & E2 & S2).
  rewrite (S2 N2) in E2. clear S2 s2.
  unfold bind at 1. rewrite E2.
  unfold bind at 1.
  rewrite (attempt_once_video env generation_id request 2
             (Qred (30 * (3 # 2))) r3 rest (with_status processing g)
             (log_effect (Sleep 30)
                (answered request (Responded r3 :: rest)
                   (log_effect (Sleep 20)
                      (answered request (Responded r2 :: Responded r3 :: rest)
                         (started generation_id g w)))))
             H3 (check_video_content_accepts r3 _ Hct) Hne Hw
             (started_record generation_id g w) eq_refl).
  reflexivity.
Qed.
End Scenarios.

Section MoreScenarios.
Variable env : Env.
Variable generation_id : string.

(** One 200 answer that is no video, no JSON and short. *)
Lemma run_short_text (g : VideoGeneration) (image_data : list byte)
    (r : Response) (rest : list PostResult) (w : World) :
  truthy (HF_TOKEN env) = true ->
  dict_get generation_id (generations w) = Some g ->
  dict_get (image_path_of g) (files w) = Some image_data ->
  network w = Responded r :: rest ->
  status_code r = 200%Z -> video_content_type r = false ->
  json_body r = None -> (List.length (content r) < 1000)%nat ->
  let request :=
    svd_request (token_of env) (with_status processing g) image_data in
  process_body env generation_id w
  = (Raise (Exception (ResponseTooSmall (List.length (content r)))),
     answered request rest (started generation_id g w)).
Proof.
  intros Htok Hg Hfile Hnet Hcode Hct Hj Hlen request.
  rewrite (process_body_with_token env generation_id g image_data w Htok Hg Hfile).
  fold request. unfold max_retries at 1. cbn [seq retry_loop].
  unfold bind at 1.
  rewrite (attempt_once_rejected env generation_id request 0 20 r rest
             (ResponseTooSmall (List.length (content r)))
             (started generation_id g w) Hcode
             (check_video_content_too_small r _ Hct Hj Hlen) Hnet).
  reflexivity.
Qed.

(** One 200 answer that is no video and no JSON, but long. *)
Lemma run_long_text (g : VideoGeneration) (image_data : list byte)
    (r : Response) (rest : list PostResult) (w : World) :
  truthy (HF_TOKEN env) = true ->
  dict_get generation_id (generations w) = Some g ->
  dict_get (image_path_of g) (files w) = Some image_data ->
  network w = Responded r :: rest ->
  status_code r = 200%Z -> video_content_type r = false ->
  json_body r = None -> (1000 <= List.length (content r))%nat ->
  writable env (video_path_of generation_id) = true ->
  let request :=
    svd_request (token_of env) (with_status processing g) image_data in
  process_body env generation_id w
  = (Ok tt,
     saved generation_id (with_status processing g) (content r)
       (answered request rest (started generation_id g w))).
Proof.
  intros Htok Hg Hfile Hnet Hcode Hct Hj Hlen Hw request.
  rewrite (process_body_with_token env generation_id g image_data w Htok Hg Hfile).
  fold request. unfold max_retries at 1. cbn [seq retry_loop].
  unfold bind at 1.
  assert (content r <> []) as Hne.
  { intros E. rewrite E in Hlen. cbn in Hlen. lia. }
  rewrite (attempt_once_video env generation_id request 0 20 r rest
             (with_status processing g) (started generation_id g w) Hcode
             (check_video_content_large r _ Hct Hj Hlen) Hne Hw
             (started_record generation_id g w) Hnet).
  reflexivity.
Qed.

(** Without a token the controller hands the claimed job to the fallback. *)
Lemma process_body_without_token (g : VideoGeneration) (w : World) :
  truthy (HF_TOKEN env) = false ->
  dict_get generation_id (generations w) = Some g ->
  process_body env generation_id w
  = mock_video_generation env generation_id (started generation_id g w).
Proof.
  intros Htok Hg. unfold process_body. unfold bind at 1.
  rewrite (set_status_started generation_id g w Hg).
  unfold process_claimed. unfold bind at 1.
  unfold store_lookup at 1. rewrite started_record. rewrite Htok. reflexivity.
Qed.

Lemma run_without_token (g : VideoGeneration) (w : World) :
  truthy (HF_TOKEN env) = false ->
  dict_get generation_id (generations w) = Some g ->
  writable env (video_path_of generation_id) = true ->
  process_body env generation_id w
  = (Ok tt,
     saved generation_id (with_status processing g) mp4_data
       (log_effect (Sleep 10) (started generation_id g w))).
Proof.
  intros Htok Hg Hw.
  rewrite (process_body_without_token g w Htok Hg).
  unfold mock_video_generation, try_except, mock_body.
  unfold bind at 1, time_sleep at 1. unfold bind at 1, write_file at 1.
  fold (video_path_of generation_id). rewrite Hw.
  rewrite (update_generation_present generation_id completed _
             (with_status processing g)); [reflexivity|].
  apply started_record.
Qed.

(** What a run that ends with one more store write has done, in order. *)
Lemma wrote_new_effects (P : PostRequest -> Prop)
    (f : VideoGeneration -> VideoGeneration) (g : VideoGeneration)
    (w w' : World) :
  wrote P generation_id f (started generation_id g w) w' ->
  exists middle,
    new_effects w w'
    = StoreWrite (generations (started generation_id g w))
      :: middle ++ [StoreWrite (generations w')]
    /\ snapshots middle = []
    /\ Forall P (requests middle)
    /\ generations w'
       = dict_set generation_id (f (with_status processing g)) (generations w).
Proof.
  intros (g0 & l & Hg0 & Hgen & Hq & Hlog).
  rewrite started_record in Hg0. injection Hg0 as <-.
  destruct (quiet_log_app _ _ _ Hq) as (effects & -> & Hs & Hr).
  exists (rev effects). repeat split; try assumption.
  - rewrite (new_effects_app w w'
               (StoreWrite (generations w') :: effects
                ++ [StoreWrite (generations (started generation_id g w))])).
    + simpl. rewrite rev_app_distr. reflexivity.
    + rewrite Hlog. simpl. rewrite <- app_assoc. reflexivity.
  - rewrite Hgen. cbn [started generations]. apply dict_set_set.
Qed.
End MoreScenarios.

Lemma wrote_record (P : PostRequest -> Prop) (generation_id : string)
    (f : VideoGeneration -> VideoGeneration) (w w' : World) :
  wrote P generation_id f w w' ->
  exists g,
    dict_get generation_id (generations w) = Some g
    /\ dict_get generation_id (generations w') = Some (f g).
Proof.
  intros (g & l & Hg & Hgen & _ & _). exists g. split; [exact Hg|].
  rewrite Hgen. apply dict_get_set_same.
Qed.

Lemma image_on_disk (g : VideoGeneration) (w : World) :
  dict_mem (image_path_of g) (files w) = true ->
  exists image_data, dict_get (image_path_of g) (files w) = Some image_data.
Proof.
  unfold dict_mem. destruct (dict_get _ _) as [d|]; [eauto|discriminate].
Qed.

(** ** Counting the requests of a run *)

Lemma log_grows_trans (n m : nat) (a b c : list Effect) :
  log_grows n a b -> log_grows m b c -> log_grows (n + m) a c.
Proof.
  intros Hab Hbc. induction Hbc; rewrite ?Nat.add_0_r, ?Nat.add_succ_r;
    auto using log_grows.
Qed.

Lemma log_grows_app (n : nat) (base l : list Effect) :
  log_grows n base l ->
  exists effects,
    l = effects ++ base /\ List.length (requests (rev effects)) = n.
Proof.
  unfold requests.
  induction 1 as [base|n base s l _ (es & -> & Hn)|n base q l _ (es & -> & Hn)
                 |n base p d l _ (es & -> & Hn)|n base r l _ (es & -> & Hn)].
  - exists []. split; reflexivity.
  - exists (StoreWrite s :: es). split; [reflexivity|].
    simpl. rewrite flat_map_app. simpl. now rewrite app_nil_r.
  - exists (Sleep q :: es). split; [reflexivity|].
    simpl. rewrite flat_map_app. simpl. now rewrite app_nil_r.
  - exists (FileWrite p d :: es). split; [reflexivity|].
    simpl. rewrite flat_map_app. simpl. now rewrite app_nil_r.
  - exists (Post r :: es). split; [reflexivity|].
    simpl. rewrite flat_map_app, length_app. simpl. rewrite Hn. lia.
Qed.

Lemma log_grows_requests (n : nat) (w w' : World) :
  log_grows n (log w) (log w') ->
  List.length (requests (new_effects w w')) = n.
Proof.
  intros H. destruct (log_grows_app n _ _ H) as (effects & E & Hn).
  now rewrite (new_effects_app w w' effects E).
Qed.

Section Counting.
Variable env : Env.
Variable generation_id : string.

Lemma set_status_grows (st : Status) (w : World) :
  log_grows 0 (log w) (log (snd (set_status generation_id st w))).
Proof.
  unfold set_status, bind, store_lookup, store_write.
  destruct (dict_get generation_id (generations w)); cbn [snd log];
    repeat constructor.
Qed.

Lemma update_generation_grows (st : Status) (u : string) (w : World) :
  log_grows 0 (log w) (log (snd (update_generation generation_id st u w))).
Proof.
  unfold update_generation, bind, store_lookup, store_write.
  destruct (dict_get generation_id (generations w)); cbn [snd log];
    repeat constructor.
Qed.

Lemma save_video_grows (response : Response) (w : World) :
  log_grows 0 (log w) (log (snd (save_video env generation_id response w))).
Proof.
  unfold save_video, bind, write_file, os_path_exists, os_path_getsize.
  destruct (writable env _); [|constructor].
  cbn [files]. rewrite dict_mem_set_same. cbn [negb files].
  rewrite dict_get_set_same. unfold ret, raise.
  destruct (_ =? 0)%nat.
  - cbn [snd log]. repeat constructor.
  - match goal with
    | |- context [update_generation generation_id ?st ?u ?w1] =>
        pose proof (update_generation_grows st u w1) as H;
        destruct (update_generation generation_id st u w1) as [r w2]
    end.
    cbn [snd log] in H |- *.
    apply log_grows_trans with (n := 0%nat) (m := 0%nat) (2 := H).
    repeat constructor.
Qed.

(** An attempt sends exactly one request. *)
Lemma attempt_body_grows (request : PostRequest) (attempt : nat)
    (retry_delay : Q) (w : World) :
  log_grows 1 (log w)
    (log (snd (attempt_body env generation_id request attempt retry_delay w))).
Proof.
  unfold attempt_body. unfold bind at 1.
  assert (log_grows 1 (log w) (log (snd (requests_post request w)))) as Hp.
  { unfold requests_post. destruct (network w) as [|[r|reason] rest];
      cbn [snd log log_effect]; repeat constructor. }
  destruct (requests_post request w) as [[response|e] w1]; [|exact Hp].
  cbn [snd] in Hp. unfold bind at 1.
  assert (exists w2 again,
    (if (status_code response =? 503)%Z
     then wait_for_model response retry_delay ;;
          ret (attempt <? max_retries - 1)%nat
     else ret false) w1 = (Ok again, w2)
    /\ log_grows 1 (log w) (log w2)) as (w2 & again & -> & H2).
  { destruct (status_code response =? 503)%Z.
    - destruct (wait_for_model_sleeps response retry_delay w1) as (x & Hw & _).
      unfold bind. rewrite Hw. unfold ret. do 2 eexists.
      split; [reflexivity|]. cbn [log log_effect]. now constructor.
    - exists w1, false. split; [reflexivity|exact Hp]. }
  destruct again; [exact H2|].
  destruct (negb _).
  - destruct (fail_with_status_raises response w2) as (detail & Hf).
    unfold bind. rewrite Hf. exact H2.
  - unfold bind at 1.
    pose proof (check_video_content_pure response w2) as Hc.
    destruct (check_video_content response w2) as [[[]|e] w3];
      cbn [snd] in Hc; subst w3; [|exact H2].
    unfold bind at 1.
    pose proof (save_video_grows response w2) as Hs.
    destruct (save_video env generation_id response w2) as [[[]|e] w4];
      cbn [snd] in Hs |- *; apply (log_grows_trans 1 0 _ _ _ H2 Hs).
Qed.

Lemma attempt_once_grows (request : PostRequest) (attempt : nat)
    (retry_delay : Q) (w : World) :
  log_grows 1 (log w)
    (log (snd (attempt_once env generation_id request attempt retry_delay w))).
Proof.
  unfold attempt_once, try_except.
  pose proof (attempt_body_grows request attempt retry_delay w) as Hb.
  destruct (attempt_body env generation_id request attempt retry_delay w)
    as [[flow|e] w1]; [exact Hb|].
  cbn [snd] in Hb. destruct e; unfold except_RequestException; try exact Hb.
  destruct (attempt <? max_retries - 1)%nat; [|exact Hb].
  unfold bind, time_sleep, ret. cbn [snd log log_effect]. now constructor.
Qed.

(** The loop sends at most one request for each attempt it is given. *)
Lemma retry_loop_grows (request : PostRequest) (attempts : list nat)
    (retry_delay : Q) (w : World) :
  exists n,
    (n <= List.length attempts)%nat
    /\ log_grows n (log w)
         (log (snd (retry_loop env generation_id request attempts retry_delay w))).
Proof.
  revert retry_delay w.
  induction attempts as [|attempt rest IH]; intros retry_delay w.
  - exists 0%nat. split; [lia|constructor].
  - cbn [retry_loop]. unfold bind.
    pose proof (attempt_once_grows request attempt retry_delay w) as Ha.
    destruct (attempt_once env generation_id request attempt retry_delay w)
      as [[[d|]|e] w1]; cbn [snd] in Ha.
    + destruct (IH d w1) as (n & Hn & Hg). exists (1 + n)%nat.
      split; [cbn [List.length]; lia|]. eapply log_grows_trans; eauto.
    + exists 1%nat. split; [cbn [List.length]; lia|exact Ha].
    + exists 1%nat. split; [cbn [List.length]; lia|exact Ha].
Qed.

Lemma mock_video_generation_grows (w : World) :
  log_grows 0 (log w) (log (snd (mock_video_generation env generation_id w))).
Proof.
  unfold mock_video_generation, try_except, mock_body.
  unfold bind at 1, time_sleep at 1. unfold bind at 1, write_file at 1.
  destruct (writable env _).
  - match goal with
    | |- context [update_generation generation_id ?st ?u ?w1] =>
        pose proof (update_generation_grows st u w1) as H;
        destruct (update_generation generation_id st u w1) as [[[]|e] w2]
    end; cbn [snd log log_effect] in H.
    + cbn [snd].
      apply log_grows_trans with (n := 0%nat) (m := 0%nat) (2 := H).
      repeat constructor.
    + cbn [except_all].
      pose proof (set_status_grows failed w2) as Hf.
      apply log_grows_trans with (n := 0%nat) (m := 0%nat) (2 := Hf).
      apply log_grows_trans with (n := 0%nat) (m := 0%nat) (2 := H).
      repeat constructor.
  - cbn [except_all].
    pose proof (set_status_grows failed (log_effect (Sleep 10) w)) as Hf.
    apply log_grows_trans with (n := 0%nat) (m := 0%nat) (2 := Hf).
    cbn [log log_effect]. repeat constructor.
Qed.

Lemma process_claimed_grows (w : World) :
  exists n,
    (n <= max_retries)%nat
    /\ log_grows n (log w) (log (snd (process_claimed env generation_id w))).
Proof.
  unfold process_claimed. unfold bind at 1, store_lookup at 1.
  destruct (dict_get generation_id (generations w)) as [generation|].
  - destruct (negb (truthy (HF_TOKEN env))).
    + exists 0%nat. split; [lia|apply mock_video_generation_grows].
    + unfold bind at 1, os_path_exists at 1.
      destruct (negb _).
      * exists 0%nat. split; [lia|constructor].
      * unfold bind at 1, read_file.
        destruct (dict_get _ (files w)) as [image_data|].
        -- match goal with
           | |- context [retry_loop env generation_id ?r ?a ?d w] =>
               destruct (retry_loop_grows r a d w) as (n & Hn & Hg)
           end.
           rewrite length_seq in Hn. eauto.
        -- exists 0%nat. split; [lia|constructor].
  - exists 0%nat. split; [lia|constructor].
Qed.

(** A run of the controller sends at most [max_retries] requests, whatever
    the answers. *)
Lemma process_video_generation_grows (w : World) :
  exists n,
    (n <= max_retries)%nat
    /\ log_grows n (log w)
         (log (snd (process_video_generation env generation_id w))).
Proof.
  unfold process_video_generation, try_except, process_body. unfold bind at 1.
  pose proof (set_status_grows processing w) as H0.
  destruct (set_status generation_id processing w) as [[[]|e] w0];
    cbn [snd] in H0.
  - destruct (process_claimed_grows w0) as (n & Hn & Hg).
    destruct (process_claimed env generation_id w0) as [[[]|e] w1];
      cbn [snd] in Hg |- *.
    + exists n. split; [exact Hn|].
      apply (log_grows_trans 0 n _ _ _ H0 Hg).
    + cbn [except_all]. exists n. split; [exact Hn|].
      pose proof (set_status_grows failed w1) as Hf.
      replace n with (0 + n + 0)%nat by lia.
      exact (log_grows_trans _ _ _ _ _ (log_grows_trans _ _ _ _ _ H0 Hg) Hf).
  - cbn [except_all]. exists 0%nat. split; [lia|].
    pose proof (set_status_grows failed w0) as Hf.
    exact (log_grows_trans 0 0 _ _ _ H0 Hf).
Qed.
End Counting.

(** ** Chains *)

Section ChainFacts.
Variable A : Type.
Variable R : A -> A -> Prop.

Lemma Chain_snoc (l : list A) (x d : A) :
  Chain R l -> (l <> [] -> R (last l d) x) -> Chain R (l ++ [x]).
Proof.
  induction 1 as [|a|a b l Hab Hl IH]; intros Hlast.
  - constructor.
  - constructor; [|constructor]. apply Hlast. discriminate.
  - cbn [app]. constructor; [exact Hab|]. apply IH. intros _.
    apply Hlast. discriminate.
Qed.

Lemma Chain_adjacent (l pre post : list A) (a b : A) :
  Chain R l -> l = pre ++ a :: b :: post -> R a b.
Proof.
  intros Hl. revert pre. induction Hl as [|x|x y l Hxy Hl IH]; intros pre E.
  - destruct pre; discriminate.
  - destruct pre as [|? [|? ?]]; discriminate.
  - destruct pre as [|p pre]; cbn [app] in E.
    + injection E as <- <- _. exact Hxy.
    + injection E as _ E. exact (IH pre E).
Qed.
End ChainFacts.

(** ** The history of the store *)

Lemma snapshots_app (l1 l2 : list Effect) :
  snapshots (l1 ++ l2) = snapshots l1 ++ snapshots l2.
Proof. apply flat_map_app. Qed.

Lemma history_app (w w' : World) (effects : list Effect) :
  log w' = effects ++ log w ->
  history w' = history w ++ snapshots (rev effects).
Proof.
  intros H. unfold history. rewrite H, rev_app_distr, snapshots_app. reflexivity.
Qed.

Lemma history_not_nil (w : World) : history w <> [].
Proof. discriminate. Qed.

(** ** Steps of the store *)

Lemma status_of_set (generation_id k : string) (g : VideoGeneration) (s : Store) :
  status_of k (dict_set generation_id g s)
  = if String.eqb k generation_id then Some (status g) else status_of k s.
Proof.
  unfold status_of. rewrite dict_get_set.
  destruct (String.eqb k generation_id); reflexivity.
Qed.

Lemma store_step_set (generation_id : string) (g : VideoGeneration) (s : Store) :
  match status_of generation_id s with
  | Some st => status g = st \/ next_status st (status g)
  | None => status g = pending
  end ->
  store_step s (dict_set generation_id g s).
Proof.
  intros H k. rewrite status_of_set.
  destruct (String.eqb_spec k generation_id) as [->|Hne].
  - destruct (status_of generation_id s) as [st|].
    + exists (status g). split; [reflexivity|exact H].
    + right. now rewrite H.
  - destruct (status_of k s) as [st|]; [|now left].
    exists st. split; [reflexivity|now left].
Qed.

Lemma url_iff_completed_set (generation_id : string) (g : VideoGeneration)
    (s : Store) :
  url_iff_completed s ->
  (is_set (videoUrl g) = true <-> status g = completed) ->
  url_iff_completed (dict_set generation_id g s).
Proof.
  intros Hs Hg k g'. rewrite dict_get_set.
  destruct (String.eqb k generation_id).
  - intros [= <-]. exact Hg.
  - apply Hs.
Qed.

Lemma in_remove_task (generation_id k : string) (tasks : list string) :
  In k (remove_task generation_id tasks) -> In k tasks.
Proof.
  induction tasks as [|t tasks IH]; simpl; [auto|].
  destruct (String.eqb generation_id t); [auto|].
  intros [->|H]; auto.
Qed.

Lemma remove_task_nodup (generation_id : string) (tasks : list string) :
  NoDup tasks ->
  NoDup (remove_task generation_id tasks)
  /\ ~ In generation_id (remove_task generation_id tasks).
Proof.
  induction 1 as [|t tasks Hnin Hnd [IH1 IH2]]; simpl.
  - split; [constructor|auto].
  - destruct (String.eqb_spec generation_id t) as [->|Hne].
    + split; assumption.
    + split.
      * constructor; [|exact IH1]. intros Hin. apply Hnin.
        eapply in_remove_task; eauto.
      * intros [E|Hin]; [congruence|auto].
Qed.

Lemma existsb_eqb_in (generation_id : string) (tasks : list string) :
  existsb (String.eqb generation_id) tasks = true -> In generation_id tasks.
Proof.
  rewrite existsb_exists. intros (t & Hin & E).
  apply String.eqb_eq in E. now subst.
Qed.

(** ** The invariant holds in every reachable state *)

Lemma last_in (A : Type) (l : list A) (d : A) : l <> [] -> In (last l d) l.
Proof.
  induction l as [|a [|b l] IH]; intros H; [congruence|now left|].
  right. apply IH. discriminate.
Qed.

Lemma invariant_current_url (sys : System) :
  invariant sys -> url_iff_completed (generations (world sys)).
Proof.
  intros I. rewrite <- (inv_current I).
  pose proof (inv_url I) as H. rewrite Forall_forall in H.
  apply H, last_in, history_not_nil.
Qed.

(** What one more store write does to the first three parts of the
    invariant. *)
Lemma invariant_store_write (sys : System) (w' : World)
    (generation_id : string) (g : VideoGeneration) :
  invariant sys ->
  history w' = history (world sys) ++ [generations w'] ->
  generations w' = dict_set generation_id g (generations (world sys)) ->
  match status_of generation_id (generations (world sys)) with
  | Some st => status g = st \/ next_status st (status g)
  | None => status g = pending
  end ->
  (is_set (videoUrl g) = true <-> status g = completed) ->
  last (history w') [] = generations w'
  /\ Chain store_step (history w')
  /\ Forall url_iff_completed (history w').
Proof.
  intros I Hh Hgen Hstep Hurl. rewrite Hh. split; [apply last_last|]. split.
  - apply (Chain_snoc Store store_step _ _ []); [exact (inv_chain I)|].
    intros _. rewrite (inv_current I), Hgen. now apply store_step_set.
  - apply Forall_app. split; [exact (inv_url I)|].
    constructor; [|constructor]. rewrite Hgen.
    apply url_iff_completed_set; [exact (invariant_current_url sys I)|exact Hurl].
Qed.

Lemma invariant_initial (disk : dict (list byte)) : invariant (initial disk).
Proof.
  constructor; cbn.
  - reflexivity.
  - constructor.
  - constructor; [|constructor]. intros k g H. discriminate H.
  - intros k [].
  - constructor.
  - intros k [].
  - constructor.
Qed.

Lemma invariant_submit (sys : System) (body : RequestBody)
    (uuid4 utcnow : string) :
  invariant sys ->
  dict_mem uuid4 (generations (world sys)) = false ->
  invariant (handle (PostGenerateVideo body uuid4 utcnow) sys).
Proof.
  intros I Hfresh. unfold handle, post_generate_video.
  destruct (validate_VideoGenerationRequest body) as [request|]; [|exact I].
  unfold generate_video, store_write. cbn [snd].
  set (g := {| id := uuid4; characterImageUrl := _; script := _; duration := _;
               quality := _; videoUrl := None; status := pending;
               createdAt := _ |}).
  set (s' := dict_set uuid4 g (generations (world sys))).
  set (w' := {| generations := s'; files := _; network := _; log := _ |}).
  assert (history w' = history (world sys) ++ [generations w']) as Hh.
  { apply (history_app (world sys) w' [StoreWrite s']). reflexivity. }
  assert (status_of uuid4 (generations (world sys)) = None) as Hnone.
  { unfold status_of. unfold dict_mem in Hfresh.
    destruct (dict_get uuid4 (generations (world sys))); [discriminate|reflexivity]. }
  destruct (invariant_store_write sys w' uuid4 g I Hh eq_refl) as (H1 & H2 & H3).
  { rewrite Hnone. reflexivity. }
  { cbn. split; discriminate. }
  constructor; cbn [world background_tasks running]; try assumption.
  - intros k Hin. change (generations w') with s'. unfold s'.
    rewrite status_of_set.
    destruct (String.eqb_spec k uuid4) as [->|Hne]; [reflexivity|].
    apply (inv_tasks I). apply in_app_or in Hin.
    destruct Hin as [Hin|[E|[]]]; [exact Hin|congruence].
  - apply (Permutation_NoDup (Permutation_cons_append _ _)).
    constructor; [|exact (inv_nodup I)].
    intros Hin. apply (inv_tasks I) in Hin. congruence.
  - intros k Hin. change (generations w') with s'. unfold s'.
    rewrite status_of_set.
    destruct (String.eqb_spec k uuid4) as [->|Hne].
    + apply (inv_running I) in Hin. congruence.
    + now apply (inv_running I).
  - exact (inv_running_nodup I).
Qed.

Lemma invariant_upload (sys : System) (filename : string) (data : list byte) :
  invariant sys -> invariant (handle (UploadCharacter filename data) sys).
Proof.
  intros I. unfold handle.
  set (w' := {| generations := _; files := _; network := _; log := _ |}).
  assert (history w' = history (world sys)) as Hh.
  { rewrite (history_app (world sys) w'
               [FileWrite (String.append "uploads/" filename) data]);
      [apply app_nil_r|reflexivity]. }
  constructor; cbn [world background_tasks running]; rewrite ?Hh; apply I.
Qed.

(** A pending or processing job has no [videoUrl]. *)
Lemma invariant_unset (sys : System) (generation_id : string)
    (g : VideoGeneration) :
  invariant sys ->
  dict_get generation_id (generations (world sys)) = Some g ->
  status g <> completed ->
  is_set (videoUrl g) = false.
Proof.
  intros I Hg Hst.
  destruct (invariant_current_url sys I generation_id g Hg) as [Hurl _].
  destruct (is_set (videoUrl g)); [|reflexivity].
  exfalso. now apply Hst, Hurl.
Qed.

Lemma invariant_task_starts (sys : System) (generation_id : string) :
  invariant sys -> invariant (handle (TaskStarts generation_id) sys).
Proof.
  intros I. unfold handle.
  destruct (existsb _ _) eqn:Hex; [|exact I].
  apply existsb_eqb_in in Hex.
  pose proof (inv_tasks I generation_id Hex) as Hpending.
  unfold status_of in Hpending.
  destruct (dict_get generation_id (generations (world sys))) as [g|] eqn:Hg;
    [|discriminate].
  injection Hpending as Hpending.
  rewrite (set_status_started generation_id g (world sys) Hg).
  set (w' := started generation_id g (world sys)).
  assert (history w' = history (world sys) ++ [generations w']) as Hh.
  { apply (history_app (world sys) w' [StoreWrite (generations w')]). reflexivity. }
  assert (is_set (videoUrl g) = false) as Hunset.
  { apply (invariant_unset sys generation_id g I Hg). congruence. }
  destruct (invariant_store_write sys w' generation_id
              (with_status processing g) I Hh eq_refl) as (H1 & H2 & H3).
  { unfold status_of. rewrite Hg. cbn. right. rewrite Hpending. constructor. }
  { cbn. rewrite Hunset. split; discriminate. }
  destruct (remove_task_nodup generation_id _ (inv_nodup I)) as [Hnd Hnin].
  constructor; cbn [world background_tasks running]; try assumption.
  - intros k Hin. change (generations w')
      with (dict_set generation_id (with_status processing g)
              (generations (world sys))).
    rewrite status_of_set.
    destruct (String.eqb_spec k generation_id) as [->|Hne]; [contradiction|].
    apply (inv_tasks I). eapply in_remove_task; eauto.
  - intros k Hin. change (generations w')
      with (dict_set generation_id (with_status processing g)
              (generations (world sys))).
    rewrite status_of_set.
    destruct (String.eqb_spec k generation_id) as [->|Hne]; [reflexivity|].
    destruct Hin as [E|Hin]; [congruence|]. now apply (inv_running I).
  - constructor; [|exact (inv_running_nodup I)].
    intros Hin. apply (inv_running I) in Hin.
    unfold status_of in Hin. rewrite Hg in Hin. cbn in Hin. congruence.
Qed.

Lemma wrote_history_one (P : PostRequest -> Prop) (generation_id : string)
    (f : VideoGeneration -> VideoGeneration) (w w' : World) :
  wrote P generation_id f w w' ->
  history w' = history w ++ [generations w'].
Proof.
  intros (g & l & _ & _ & Hq & Hlog).
  destruct (quiet_log_app _ _ _ Hq) as (effects & -> & Hs & _).
  rewrite (history_app w w' (StoreWrite (generations w') :: effects)).
  - simpl. rewrite snapshots_app, Hs. reflexivity.
  - rewrite Hlog. reflexivity.
Qed.

Lemma invariant_task_ends (sys : System) (env : Env) (answers : list PostResult)
    (generation_id : string) :
  invariant sys ->
  invariant (handle (TaskEnds env answers generation_id) sys).
Proof.
  intros I. unfold handle.
  destruct (existsb _ _) eqn:Hex; [|exact I].
  apply existsb_eqb_in in Hex.
  pose proof (inv_running I generation_id Hex) as Hproc.
  unfold status_of in Hproc.
  destruct (dict_get generation_id (generations (world sys))) as [g|] eqn:Hg;
    [|discriminate].
  injection Hproc as Hproc.
  set (wn := with_network answers (world sys)).
  destruct (resume_claimed_cases env generation_id g wn Hg) as (w' & Hrun & Hw).
  rewrite Hrun. cbn [snd].
  assert (is_set (videoUrl g) = false) as Hunset.
  { apply (invariant_unset sys generation_id g I Hg). congruence. }
  assert (exists f,
            wrote (frames_of g) generation_id f wn w'
            /\ next_status processing (status (f g))
            /\ (is_set (videoUrl (f g)) = true <-> status (f g) = completed))
    as (f & Hf & Hnext & Hfurl).
  { destruct Hw as [Hw|Hw]; eexists; (split; [exact Hw|]); cbn.
    - split; [constructor|]. split; reflexivity.
    - split; [constructor|]. rewrite Hunset. split; discriminate. }
  pose proof (wrote_history_one _ _ _ _ _ Hf) as Hh.
  change (history wn) with (history (world sys)) in Hh.
  assert (generations w' = dict_set generation_id (f g) (generations (world sys)))
    as Hgen.
  { destruct Hf as (g0 & l & Hg0 & Hgen & _).
    change (generations wn) with (generations (world sys)) in Hg0, Hgen.
    rewrite Hg in Hg0. injection Hg0 as <-. exact Hgen. }
  destruct (invariant_store_write sys w' generation_id (f g) I Hh Hgen)
    as (H1 & H2 & H3).
  { unfold status_of. rewrite Hg. cbn. right. rewrite Hproc. exact Hnext. }
  { exact Hfurl. }
  destruct (remove_task_nodup generation_id _ (inv_running_nodup I))
    as [Hnd Hnin].
  constructor; cbn [world background_tasks running]; try assumption.
  - intros k Hin. rewrite Hgen, status_of_set.
    destruct (String.eqb_spec k generation_id) as [->|Hne].
    + apply (inv_tasks I) in Hin. unfold status_of in Hin.
      rewrite Hg in Hin. cbn in Hin. congruence.
    + now apply (inv_tasks I).
  - exact (inv_nodup I).
  - intros k Hin. rewrite Hgen, status_of_set.
    destruct (String.eqb_spec k generation_id) as [->|Hne]; [contradiction|].
    apply (inv_running I). eapply in_remove_task; eauto.
Qed.

Lemma reachable_invariant (sys : System) : reachable sys -> invariant sys.
Proof.
  induction 1 as [disk|sys body uuid4 utcnow _ IH Hfresh|sys k _ IH|sys _ IH
                 |sys filename data _ IH|sys k _ IH|sys env answers k _ IH].
  - apply invariant_initial.
  - now apply invariant_submit.
  - exact IH.
  - exact IH.
  - now apply invariant_upload.
  - now apply invariant_task_starts.
  - now apply invariant_task_ends.
Qed.

(** The two task events, one after the other, are one run of the
    controller. *)
Lemma task_events_compose (sys : System) (env : Env)
    (answers : list PostResult) (generation_id : string) (g : VideoGeneration) :
  In generation_id (background_tasks sys) ->
  dict_get generation_id (generations (world sys)) = Some g ->
  world (handle (TaskEnds env answers generation_id)
           (handle (TaskStarts generation_id) sys))
  = snd (process_video_generation env generation_id
           (with_network answers (world sys))).
Proof.
  intros Hin Hg. unfold handle at 2.
  assert (existsb (String.eqb generation_id) (background_tasks sys) = true) as ->.
  { apply existsb_exists. exists generation_id. split; [exact Hin|].
    apply String.eqb_refl. }
  rewrite (set_status_started generation_id g (world sys) Hg).
  unfold handle. cbn [running existsb world]. rewrite String.eqb_refl.
  cbn [orb world].
  rewrite (process_video_generation_split env generation_id g
             (with_network answers (world sys)) Hg).
  reflexivity.
Qed.

(** Along a chain of store steps a completed or failed status stays. *)
Lemma terminal_status_stays (generation_id : string) (st : Status)
    (mid : list Store) :
  terminal st = true ->
  forall (l pre post : list Store) (s1 s2 : Store),
    Chain store_step l ->
    l = pre ++ s1 :: mid ++ s2 :: post ->
    status_of generation_id s1 = Some st ->
    status_of generation_id s2 = Some st.
Proof.
  intros Hterm. induction mid as [|m mid IH]; intros l pre post s1 s2 Hl E H1.
  - pose proof (Chain_adjacent Store store_step l pre post s1 s2 Hl E
                  generation_id) as Hstep.
    rewrite H1 in Hstep. destruct Hstep as (st2 & H2 & [->|Hnext]); [exact H2|].
    destruct Hnext; discriminate.
  - cbn [app] in E.
    pose proof (Chain_adjacent Store store_step l pre (mid ++ s2 :: post) s1 m
                  Hl E generation_id) as Hstep.
    rewrite H1 in Hstep. destruct Hstep as (st2 & H2 & [->|Hnext]).
    + apply (IH l (pre ++ [s1]) post m s2 Hl); [|exact H2].
      rewrite <- app_assoc. exact E.
    + destruct Hnext; discriminate.
Qed.

(** * The claims *)

(** C1. The status of a job only moves along pending, processing, then
    completed or failed.  On a job of the store, the first effect of the
    controller is the store write that sets [processing].  In every state
    the server can reach, the current store is the last observable one, and
    for every job: from one observable store to the next its status stays or
    takes exactly one transition of the life cycle, a job that appears is
    pending, and once its status is completed or failed it is the same in
    every later observable store. *)
Theorem status_moves_along_lifecycle :
  (forall env generation_id g w,
     dict_get generation_id (generations w) = Some g ->
     exists later,
       new_effects w (snd (process_video_generation env generation_id w))
       = StoreWrite
           (dict_set generation_id (with_status processing g) (generations w))
         :: later)
  /\ (forall sys,
        reachable sys ->
        last (history (world sys)) [] = generations (world sys)
        /\ forall generation_id,
             (forall pre s1 s2 post,
                history (world sys) = pre ++ s1 :: s2 :: post ->
                match status_of generation_id s1 with
                | Some st1 =>
                    exists st2,
                      status_of generation_id s2 = Some st2
                      /\ (st2 = st1 \/ next_status st1 st2)
                | None =>
                    status_of generation_id s2 = None
                    \/ status_of generation_id s2 = Some pending
                end)
             /\ (forall pre s1 mid s2 post st,
                   history (world sys) = pre ++ s1 :: mid ++ s2 :: post ->
                   status_of generation_id s1 = Some st ->
                   terminal st = true ->
                   status_of generation_id s2 = Some st)).
Proof.
  split.
  - intros env generation_id g w Hg.
    destruct (process_video_generation_cases env generation_id g w Hg)
      as (w' & -> & Hw). cbn [snd].
    assert (exists f, wrote (frames_of g) generation_id f
                        (started generation_id g w) w') as (f & Hf).
    { destruct Hw; eauto. }
    destruct (wrote_new_effects generation_id _ f g w w' Hf)
      as (middle & -> & _). eexists. reflexivity.
  - intros sys Hreach. pose proof (reachable_invariant sys Hreach) as I.
    split; [exact (inv_current I)|]. intros generation_id. split.
    + intros pre s1 s2 post E.
      exact (Chain_adjacent Store store_step _ pre post s1 s2 (inv_chain I) E
               generation_id).
    + intros pre s1 mid s2 post st E H1 Hterm.
      exact (terminal_status_stays generation_id st mid Hterm _ pre post s1 s2
               (inv_chain I) E H1).
Qed.

Lemma sample_final_reachable : reachable sample_final.
Proof.
  unfold sample_final, sample_done, sample_system.
  apply reachable_start, reachable_end.
  apply reachable_submit; [|reflexivity].
  apply reachable_start.
  apply reachable_submit; [|reflexivity].
  apply reachable_initial.
Defined.

(** The first job goes pending, processing, completed, and is still
    completed in the store that the start of the second task produces. *)
Lemma status_moves_along_lifecycle_witness :
  map (status_of "job-1") (history (world sample_final))
  = [None; Some pending; Some processing; Some processing; Some completed;
     Some completed]
  /\ map (status_of "job-2") (history (world sample_final))
     = [None; None; None; Some pending; Some pending; Some processing]
  /\ status_of "job-1" (nth 5 (history (world sample_final)) [])
     = Some completed.
Proof.
  split; [reflexivity|]. split; [reflexivity|].
  destruct status_moves_along_lifecycle as [_ H].
  destruct (H sample_final sample_final_reachable) as [_ Hid].
  destruct (Hid "job-1"%string) as [_ Hterm].
  apply (Hterm (firstn 4 (history (world sample_final)))
               (nth 4 (history (world sample_final)) []) []
               (nth 5 (history (world sample_final)) []) [] completed);
    reflexivity.
Defined.

(** The controller itself does not look at the status it finds: run by
    hand on a completed job it would claim it again.  The server never does
    this, because it runs one task for each submission, under a new
    identifier. *)
Example controller_alone_has_no_guard :
  map (status_of "job-1")
    (snapshots
       (new_effects (world sample_done)
          (snd (process_video_generation sample_env "job-1"
                  (with_network [RequestFailed "timeout"; RequestFailed "timeout";
                                 RequestFailed "timeout"]
                     (world sample_done))))))
  = [Some processing; Some failed].
Proof. reflexivity. Qed.

(** C2. In every state the server can reach, in every observable state of
    the store and in the current one, the [videoUrl] of a job is set if and
    only if its status is [completed]; so a failed job has no [videoUrl] and
    a completed one always has it. *)
Theorem videoUrl_set_iff_completed (sys : System) :
  reachable sys ->
  forall s,
    In s (history (world sys)) \/ s = generations (world sys) ->
    forall generation_id g,
      dict_get generation_id s = Some g ->
      (is_set (videoUrl g) = true <-> status g = completed)
      /\ (status g = failed -> videoUrl g = None).
Proof.
  intros Hreach s Hs generation_id g Hg.
  pose proof (reachable_invariant sys Hreach) as I.
  assert (url_iff_completed s) as Hurl.
  { destruct Hs as [Hin| ->].
    - pose proof (inv_url I) as H. rewrite Forall_forall in H. now apply H.
    - exact (invariant_current_url sys I). }
  specialize (Hurl generation_id g Hg). split; [exact Hurl|].
  intros Hfailed. destruct (videoUrl g) as [u|]; [|reflexivity].
  destruct Hurl as [Hurl _]. rewrite Hurl in Hfailed; [discriminate|reflexivity].
Qed.

Lemma videoUrl_set_iff_completed_witness :
  let g :=
    update_status_videoUrl completed (video_url_of "job-1") sample_job in
  map (videoUrl_of "job-1") (history (world sample_final))
  = [None; Some None; Some None; Some None; Some (videoUrl g);
     Some (videoUrl g)]
  /\ dict_get "job-1" (generations (world sample_final)) = Some g
  /\ (is_set (videoUrl g) = true <-> status g = completed).
Proof.
  intros g. split; [reflexivity|]. split; [reflexivity|].
  exact (proj1 (videoUrl_set_iff_completed sample_final sample_final_reachable
                  (generations (world sample_final)) (or_intror eq_refl)
                  "job-1"%string g eq_refl)).
Defined.

(** C3. On a job of the store the controller never lets an exception out:
    it returns normally.  Whenever the body of its [try] raises, whatever
    the exception (missing image, exhausted retries, non-video answer, empty
    or unwritable video file), the job ends with status [failed]; the same
    holds when the body of the fallback generator raises. *)
Theorem controller_is_terminal_sink (env : Env) (generation_id : string)
    (g : VideoGeneration) (w : World) :
  dict_get generation_id (generations w) = Some g ->
  let run := process_video_generation env generation_id w in
  fst run = Ok tt
  /\ (forall e w1,
        process_body env generation_id w = (Raise e, w1) ->
        status_of generation_id (generations (snd run)) = Some failed)
  /\ (forall e w1,
        truthy (HF_TOKEN env) = false ->
        mock_body env generation_id (started generation_id g w) = (Raise e, w1) ->
        status_of generation_id (generations (snd run)) = Some failed).
Proof.
  intros Hg run. subst run. split; [|split].
  - destruct (process_video_generation_cases env generation_id g w Hg)
      as (w' & -> & _). reflexivity.
  - intros e w1 Hb. unfold process_video_generation, try_except.
    pose proof (process_body_cases env generation_id g w Hg) as Hq.
    cbv zeta in Hq. rewrite Hb in Hq |- *. cbn [except_all].
    destruct (fail_after_quiet generation_id _ _ _ w1
                (started_record generation_id g w) Hq) as (w2 & -> & Hw).
    cbn [snd]. destruct (wrote_record _ _ _ _ _ Hw) as (g0 & _ & Hrec).
    unfold status_of. rewrite Hrec. reflexivity.
  - intros e w1 Htok Hm. unfold process_video_generation, try_except.
    rewrite (process_body_without_token env generation_id g w Htok Hg).
    unfold mock_video_generation, try_except.
    pose proof (mock_body_cases env generation_id (fun _ => True)
                  (started generation_id g w)) as Hq.
    rewrite Hm in Hq |- *. cbn [except_all].
    destruct (fail_after_quiet generation_id _ _ _ w1
                (started_record generation_id g w) Hq) as (w2 & -> & Hw).
    cbn [snd]. destruct (wrote_record _ _ _ _ _ Hw) as (g0 & _ & Hrec).
    unfold status_of. rewrite Hrec. reflexivity.
Qed.

(** A job whose image is missing: the body raises, the controller does not,
    and the job is failed. *)
Lemma controller_is_terminal_sink_witness :
  let w := world (handle (PostGenerateVideo sample_body "job-1" "t") (initial [])) in
  fst (process_video_generation sample_env "job-1" w) = Ok tt
  /\ status_of "job-1"
       (generations (snd (process_video_generation sample_env "job-1" w)))
     = Some failed.
Proof.
  intros w.
  destruct (controller_is_terminal_sink sample_env "job-1"
              (with_status pending
                 {| id := "job-1";
                    characterImageUrl := "/uploads/character_1.jpg";
                    script := "Hello"; duration := 5; quality := "768";
                    videoUrl := None; status := pending; createdAt := "tZ" |})
              w eq_refl) as (H1 & H2 & _).
  split; [exact H1|].
  apply (H2 (Exception (CharacterImageNotFound "uploads/character_1.jpg"))
            (started "job-1"
               {| id := "job-1";
                  characterImageUrl := "/uploads/character_1.jpg";
                  script := "Hello"; duration := 5; quality := "768";
                  videoUrl := None; status := pending; createdAt := "tZ" |} w)).
  reflexivity.
Defined.

(** The ways of failing that the body of the controller has, each on the
    first job of the sample server: exhausted retries after network errors,
    a semantic error of the API, a JSON answer where a video was expected,
    an empty video, and a video file that cannot be written. *)
Example body_raises_after_network_errors :
  fst (process_body sample_env "job-1"
         (with_network
            [RequestFailed "timeout"; RequestFailed "timeout";
             RequestFailed "connection reset"]
            (world sample_system)))
  = Raise (RequestException "connection reset").
Proof. reflexivity. Qed.

Example body_raises_on_api_error :
  fst (process_body sample_env "job-1"
         (with_network
            [Responded {| status_code := 401; content_type := None;
                          content := [];
                          json_body :=
                            Some (JObj [("error"%string, JStr "Unauthorized")]);
                          text := "" |}]
            (world sample_system)))
  = Raise (Exception (ApiRequestFailed 401 (JStr "Unauthorized"))).
Proof. reflexivity. Qed.

Example body_raises_on_json_answer :
  fst (process_body sample_env "job-1"
         (with_network
            [Responded {| status_code := 200;
                          content_type := Some "application/json"%string;
                          content := [x7b; x7d];
                          json_body := Some (JObj []);
                          text := "{}" |}]
            (world sample_system)))
  = Raise (Exception (NonVideoResponse (JObj []))).
Proof. reflexivity. Qed.

Example body_raises_on_empty_video :
  fst (process_body sample_env "job-1"
         (with_network
            [Responded {| status_code := 200;
                          content_type := Some "video/mp4"%string;
                          content := []; json_body := None; text := "" |}]
            (world sample_system)))
  = Raise (Exception EmptyVideoFile).
Proof. reflexivity. Qed.

Example body_raises_on_unwritable_video :
  fst (process_body
         {| HF_TOKEN := Some "hf_sample"%string; writable := fun _ => false |}
         "job-1"
         (with_network [Responded sample_video] (world sample_system)))
  = Raise (OSError "videos/video_job-1.mp4").
Proof. reflexivity. Qed.

(** A network error before the last attempt is retried, not fatal. *)
Example network_error_is_retried :
  let run :=
    process_video_generation sample_env "job-1"
      (with_network [RequestFailed "timeout"; Responded sample_video]
         (world sample_system)) in
  status_of "job-1" (generations (snd run)) = Some completed
  /\ sleeps (new_effects (world sample_system) (snd run)) = [20%Q].
Proof. split; reflexivity. Qed.

(** C4. With a credential and the image on disk, if the endpoint answers
    503 to every attempt, the controller sends exactly three requests (it
    takes exactly three answers from the network) and the job ends with
    status [failed]. *)
Theorem always_loading_fails_after_three_attempts (env : Env)
    (generation_id : string) (g : VideoGeneration) (w : World)
    (r1 r2 r3 : Response) (rest : list PostResult) :
  dict_get generation_id (generations w) = Some g ->
  truthy (HF_TOKEN env) = true ->
  dict_mem (image_path_of g) (files w) = true ->
  network w = Responded r1 :: Responded r2 :: Responded r3 :: rest ->
  status_code r1 = 503%Z -> status_code r2 = 503%Z -> status_code r3 = 503%Z ->
  let run := process_video_generation env generation_id w in
  fst run = Ok tt
  /\ List.length (requests (new_effects w (snd run))) = 3%nat
  /\ network (snd run) = rest
  /\ status_of generation_id (generations (snd run)) = Some failed.
Proof.
  intros Hg Htok Himg Hnet H1 H2 H3 run. subst run.
  destruct (image_on_disk g w Himg) as (image_data & Hfile).
  destruct (run_always_loading env generation_id g image_data r1 r2 r3 rest w
              Htok Hg Hfile Hnet H1 H2 H3) as (s1 & s2 & s3 & detail & E).
  cbv zeta in E. unfold process_video_generation, try_except.
  rewrite E. cbn [except_all].
  rewrite (set_status_present generation_id failed (with_status processing g));
    [|apply started_record].
  cbn [fst snd]. split; [reflexivity|]. split; [|split].
  - erewrite (new_effects_app w _ [_; _; _; _; _; _; _; _]) by reflexivity.
    reflexivity.
  - reflexivity.
  - unfold status_of. cbn [generations]. rewrite dict_get_set_same. reflexivity.
Qed.

(** X1. The budget of attempts is one for all causes: whatever the answers,
    a run of the controller sends at most [max_retries] requests. *)
Lemma requests_within_shared_budget (env : Env) (generation_id : string)
    (w : World) :
  (List.length
     (requests (new_effects w (snd (process_video_generation env generation_id w))))
   <= max_retries)%nat.
Proof.
  destruct (process_video_generation_grows env generation_id w) as (n & Hn & Hg).
  now rewrite (log_grows_requests n w _ Hg).
Qed.

(** A network error, a 503 and another network error use up the budget. *)
Example mixed_causes_share_the_budget :
  let w :=
    with_network
      [RequestFailed "timeout"; Responded sample_loading;
       RequestFailed "timeout"; Responded sample_video]
      (world sample_system) in
  let run := process_video_generation sample_env "job-1" w in
  List.length (requests (new_effects w (snd run))) = 3%nat
  /\ sleeps (new_effects w (snd run)) = [20%Q; 30%Q]
  /\ network (snd run) = [Responded sample_video]
  /\ status_of "job-1" (generations (snd run)) = Some failed.
Proof. repeat split. Qed.

Lemma always_loading_fails_after_three_attempts_witness :
  let w :=
    with_network
      [Responded sample_loading; Responded sample_loading;
       Responded sample_loading; Responded sample_video]
      (world sample_system) in
  let run := process_video_generation sample_env "job-1" w in
  List.length (requests (new_effects w (snd run))) = 3%nat
  /\ network (snd run) = [Responded sample_video]
  /\ status_of "job-1" (generations (snd run)) = Some failed.
Proof.
  intros w run.
  destruct (always_loading_fails_after_three_attempts sample_env "job-1"
              sample_job w sample_loading sample_loading sample_loading
              [Responded sample_video]
              eq_refl eq_refl eq_refl eq_refl eq_refl eq_refl eq_refl)
    as (_ & Hn & Hrest & Hs).
  split; [exact Hn|]. split; [exact Hrest|exact Hs].
Defined.

(** C5. With a credential and the image on disk, if the endpoint answers
    503 twice, naming no waiting time, and then 200 with a non-empty video
    that can be saved, the controller sends exactly three requests, sleeps
    20 and then 30 time units, and the job ends with status [completed] and
    the locator of the saved video. *)
Theorem loading_twice_then_video_completes (env : Env)
    (generation_id : string) (g : VideoGeneration) (w : World)
    (r1 r2 r3 : Response) (rest : list PostResult) :
  dict_get generation_id (generations w) = Some g ->
  truthy (HF_TOKEN env) = true ->
  dict_mem (image_path_of g) (files w) = true ->
  network w = Responded r1 :: Responded r2 :: Responded r3 :: rest ->
  status_code r1 = 503%Z -> no_estimated_time r1 ->
  status_code r2 = 503%Z -> no_estimated_time r2 ->
  status_code r3 = 200%Z -> video_content_type r3 = true ->
  content r3 <> [] ->
  writable env (video_path_of generation_id) = true ->
  let run := process_video_generation env generation_id w in
  fst run = Ok tt
  /\ List.length (requests (new_effects w (snd run))) = 3%nat
  /\ network (snd run) = rest
  /\ sleeps (new_effects w (snd run)) = [20%Q; 30%Q]
  /\ status_of generation_id (generations (snd run)) = Some completed
  /\ videoUrl_of generation_id (generations (snd run))
     = Some (Some (video_url_of generation_id))
  /\ dict_get (video_path_of generation_id) (files (snd run))
     = Some (content r3).
Proof.
  intros Hg Htok Himg Hnet H1 N1 H2 N2 H3 Hct Hne Hw run. subst run.
  destruct (image_on_disk g w Himg) as (image_data & Hfile).
  pose proof (run_loading_twice env generation_id g image_data r1 r2 r3 rest w
                Htok Hg Hfile Hnet H1 N1 H2 N2 H3 Hct Hne Hw) as E.
  cbv zeta in E. unfold process_video_generation, try_except.
  rewrite E. cbn [fst snd]. split; [reflexivity|].
  erewrite (new_effects_app w _ [_; _; _; _; _; _; _; _]) by reflexivity.
  repeat split.
  - unfold status_of, saved. cbn [generations].
    rewrite dict_get_set_same. reflexivity.
  - unfold videoUrl_of, saved. cbn [generations].
    rewrite dict_get_set_same. reflexivity.
  - unfold saved. cbn [files]. apply dict_get_set_same.
Qed.

Lemma loading_twice_then_video_completes_witness :
  let w :=
    with_network
      [Responded sample_loading; Responded sample_loading; Responded sample_video]
      (world sample_system) in
  let run := process_video_generation sample_env "job-1" w in
  List.length (requests (new_effects w (snd run))) = 3%nat
  /\ sleeps (new_effects w (snd run)) = [20%Q; 30%Q]
  /\ status_of "job-1" (generations (snd run)) = Some completed.
Proof.
  intros w run.
  assert (content sample_video <> []) as Hne by discriminate.
  destruct (loading_twice_then_video_completes sample_env "job-1"
              sample_job w sample_loading sample_loading sample_video []
              eq_refl eq_refl eq_refl eq_refl eq_refl eq_refl eq_refl eq_refl
              eq_refl eq_refl Hne eq_refl)
    as (_ & Hn & _ & Hsl & Hs & _).
  split; [exact Hn|]. split; [exact Hsl|exact Hs].
Defined.

(** C6. With a credential and the image on disk, let the endpoint answer the
    first request with 200, a content type that is neither video nor
    octet-stream and a body that is not JSON.  If the body is shorter than
    1000 bytes, the body of the controller raises the too-small-response
    error and the job ends with status [failed].  If the body has 1000 bytes
    or more and the video file can be written, the bytes are saved as the
    video and the job ends with status [completed]. *)
Theorem unparseable_non_video_answer (env : Env) (generation_id : string)
    (g : VideoGeneration) (w : World) (r : Response) (rest : list PostResult) :
  dict_get generation_id (generations w) = Some g ->
  truthy (HF_TOKEN env) = true ->
  dict_mem (image_path_of g) (files w) = true ->
  network w = Responded r :: rest ->
  status_code r = 200%Z ->
  video_content_type r = false ->
  json_body r = None ->
  let run := process_video_generation env generation_id w in
  ((List.length (content r) < 1000)%nat ->
     fst (process_body env generation_id w)
     = Raise (Exception (ResponseTooSmall (List.length (content r))))
     /\ fst run = Ok tt
     /\ status_of generation_id (generations (snd run)) = Some failed
     /\ videoUrl_of generation_id (generations (snd run)) = Some (videoUrl g))
  /\ ((1000 <= List.length (content r))%nat ->
      writable env (video_path_of generation_id) = true ->
      fst run = Ok tt
      /\ status_of generation_id (generations (snd run)) = Some completed
      /\ videoUrl_of generation_id (generations (snd run))
         = Some (Some (video_url_of generation_id))
      /\ dict_get (video_path_of generation_id) (files (snd run))
         = Some (content r)).
Proof.
  intros Hg Htok Himg Hnet Hcode Hct Hj run. subst run.
  destruct (image_on_disk g w Himg) as (image_data & Hfile).
  split.
  - intros Hlen.
    pose proof (run_short_text env generation_id g image_data r rest w
                  Htok Hg Hfile Hnet Hcode Hct Hj Hlen) as E.
    cbv zeta in E. unfold process_video_generation, try_except.
    rewrite E. cbn [except_all fst].
    rewrite (set_status_present generation_id failed (with_status processing g));
      [|apply started_record].
    cbn [fst snd]. unfold status_of, videoUrl_of. cbn [generations].
    rewrite dict_get_set_same. repeat split.
  - intros Hlen Hw.
    pose proof (run_long_text env generation_id g image_data r rest w
                  Htok Hg Hfile Hnet Hcode Hct Hj Hlen Hw) as E.
    cbv zeta in E. unfold process_video_generation, try_except.
    rewrite E. cbn [fst snd]. unfold status_of, videoUrl_of, saved.
    cbn [generations files]. rewrite !dict_get_set_same. repeat split.
Qed.

Lemma unparseable_non_video_answer_witness :
  let short := with_network [Responded (sample_text 999)] (world sample_system) in
  let long := with_network [Responded (sample_text 1000)] (world sample_system) in
  status_of "job-1"
    (generations (snd (process_video_generation sample_env "job-1" short)))
  = Some failed
  /\ status_of "job-1"
       (generations (snd (process_video_generation sample_env "job-1" long)))
     = Some completed.
Proof.
  intros short long. split.
  - destruct (unparseable_non_video_answer sample_env "job-1" sample_job short
                (sample_text 999) []
                eq_refl eq_refl eq_refl eq_refl eq_refl eq_refl eq_refl)
      as (H & _).
    assert (List.length (content (sample_text 999)) < 1000)%nat as Hlen.
    { cbn [sample_text content]. rewrite repeat_length. lia. }
    destruct (H Hlen) as (_ & _ & Hs & _). exact Hs.
  - destruct (unparseable_non_video_answer sample_env "job-1" sample_job long
                (sample_text 1000) []
                eq_refl eq_refl eq_refl eq_refl eq_refl eq_refl eq_refl)
      as (_ & H).
    assert (1000 <= List.length (content (sample_text 1000)))%nat as Hlen.
    { cbn [sample_text content]. rewrite repeat_length. lia. }
    destruct (H Hlen eq_refl) as (_ & Hs & _). exact Hs.
Defined.

(** C7. Without a credential, on a job of the store and with a writable
    video file, the controller ends the job with status [completed]; the
    saved artifact is the fixed, non-empty byte sequence [mp4_data], whatever
    the job; and no request is sent: the run performs no [Post] effect and
    takes no answer from the network. *)
Theorem no_credential_gives_placeholder (env : Env) (generation_id : string)
    (g : VideoGeneration) (w : World) :
  truthy (HF_TOKEN env) = false ->
  dict_get generation_id (generations w) = Some g ->
  writable env (video_path_of generation_id) = true ->
  let run := process_video_generation env generation_id w in
  fst run = Ok tt
  /\ status_of generation_id (generations (snd run)) = Some completed
  /\ videoUrl_of generation_id (generations (snd run))
     = Some (Some (video_url_of generation_id))
  /\ dict_get (video_path_of generation_id) (files (snd run)) = Some mp4_data
  /\ List.length mp4_data = 96%nat
  /\ requests (new_effects w (snd run)) = []
  /\ network (snd run) = network w.
Proof.
  intros Htok Hg Hw run. subst run.
  unfold process_video_generation, try_except.
  rewrite (run_without_token env generation_id g w Htok Hg Hw).
  cbn [fst snd]. unfold status_of, videoUrl_of, saved. cbn [generations files].
  rewrite !dict_get_set_same.
  erewrite (new_effects_app w _ [_; _; _; _]) by reflexivity.
  repeat split.
Qed.

Lemma no_credential_gives_placeholder_witness :
  let run :=
    process_video_generation sample_env_without_token "job-1"
      (world sample_system) in
  status_of "job-1" (generations (snd run)) = Some completed
  /\ dict_get (video_path_of "job-1") (files (snd run)) = Some mp4_data.
Proof.
  intros run.
  destruct (no_credential_gives_placeholder sample_env_without_token "job-1"
              sample_job (world sample_system) eq_refl eq_refl eq_refl)
    as (_ & Hs & _ & Hf & _).
  split; [exact Hs|exact Hf].
Defined.

(** C8. Every request the controller sends for a job carries the frame
    count [min (duration * 8) 25]. *)
Theorem frame_count_is_min_of_duration_times_8_and_25 (env : Env)
    (generation_id : string) (g : VideoGeneration) (w : World) :
  dict_get generation_id (generations w) = Some g ->
  Forall (fun request => post_num_frames request = Z.min (duration g * 8) 25)
    (requests (new_effects w (snd (process_video_generation env generation_id w)))).
Proof.
  intros Hg.
  destruct (process_video_generation_cases env generation_id g w Hg)
    as (w' & -> & Hw). cbn [snd].
  assert (exists f, wrote (frames_of g) generation_id f
                      (started generation_id g w) w') as (f & Hf).
  { destruct Hw; eauto. }
  destruct (wrote_new_effects generation_id _ f g w w' Hf)
    as (middle & -> & _ & Hr & _).
  unfold requests in *. simpl. rewrite flat_map_app. simpl.
  rewrite app_nil_r. exact Hr.
Qed.

Lemma frame_count_is_min_of_duration_times_8_and_25_witness :
  let w :=
    with_network [Responded sample_loading; Responded sample_video]
      (world sample_system) in
  map post_num_frames
    (requests (new_effects w (snd (process_video_generation sample_env "job-1" w))))
  = [25%Z; 25%Z]
  /\ Forall (fun request => post_num_frames request = Z.min (5 * 8) 25)
       (requests
          (new_effects w (snd (process_video_generation sample_env "job-1" w)))).
Proof.
  intros w. split; [reflexivity|].
  exact (frame_count_is_min_of_duration_times_8_and_25 sample_env "job-1"
           sample_job w eq_refl).
Defined.

(** C9. For every state of the job store, [get_generations] returns at most
    10 jobs, taken from the store, in descending order of [createdAt]; the
    jobs that share one [createdAt] value come out in the order in which the
    store holds them, which is the order of insertion. *)
Theorem get_generations_sorted_limited (generations : Store) :
  let r := get_generations generations in
  (List.length r <= 10)%nat
  /\ StronglySorted
       (fun a b => String.leb (createdAt b) (createdAt a) = true) r
  /\ (exists rest, Permutation (r ++ rest) (dict_values generations))
  /\ (forall t, exists later,
        filter (has_key createdAt t) (dict_values generations)
        = filter (has_key createdAt t) r ++ later).
Proof.
  unfold get_generations. cbv zeta.
  set (vs := dict_values generations).
  repeat split.
  - apply firstn_le_length.
  - apply StronglySorted_firstn, sort_reverse_sorted.
  - exists (skipn 10 (sort_reverse createdAt vs)).
    rewrite firstn_skipn. apply sort_reverse_perm.
  - intros t. exists (filter (has_key createdAt t) (skipn 10 (sort_reverse createdAt vs))).
    rewrite <- filter_app, firstn_skipn. symmetry. apply sort_reverse_stable.
Qed.

(** C10. A request body that gives [characterImageUrl] and [script] creates
    a pending job that carries them, with [duration] 5 when the body omits
    it and [quality] "768" when the body omits it.  A body that omits
    [characterImageUrl] or [script] is refused and leaves the server as it
    was: no job is created and no task is scheduled. *)
Theorem omitted_fields_take_defaults (body : RequestBody) (uuid4 utcnow : string)
    (sys : System) :
  (forall url text,
     body_characterImageUrl body = Some url ->
     body_script body = Some text ->
     let g :=
       {| id := uuid4; characterImageUrl := url; script := text;
          duration := match body_duration body with Some d => d | None => 5%Z end;
          quality := match body_quality body with Some q => q | None => "768"%string end;
          videoUrl := None; status := pending;
          createdAt := String.append utcnow "Z" |} in
     fst (post_generate_video body uuid4 utcnow sys) = HTTP_ok g
     /\ dict_get uuid4
          (generations (world (snd (post_generate_video body uuid4 utcnow sys))))
        = Some g
     /\ background_tasks (snd (post_generate_video body uuid4 utcnow sys))
        = background_tasks sys ++ [uuid4])
  /\ (body_characterImageUrl body = None \/ body_script body = None ->
      post_generate_video body uuid4 utcnow sys
      = (HTTPException 422 "Unprocessable Entity", sys)).
Proof.
  split.
  - intros url text Hu Ht g.
    unfold post_generate_video, validate_VideoGenerationRequest.
    rewrite Hu, Ht. unfold generate_video, store_write.
    cbn [fst snd world generations req_characterImageUrl req_script
         req_duration req_quality].
    split; [reflexivity|]. split; [|reflexivity]. apply dict_get_set_same.
  - intros H. unfold post_generate_video, validate_VideoGenerationRequest.
    destruct H as [-> | ->]; [reflexivity|].
    destruct (body_characterImageUrl body); reflexivity.
Qed.

Lemma omitted_fields_take_defaults_witness :
  option_map (fun g => (duration g, quality g))
    (dict_get "job-1"
       (generations
          (world (snd (post_generate_video sample_body "job-1" "t" (initial []))))))
  = Some (5%Z, "768"%string)
  /\ post_generate_video
       {| body_characterImageUrl := None; body_script := Some "Hello"%string;
          body_duration := Some 3%Z; body_quality := None |}
       "job-2" "t" (initial [])
     = (HTTPException 422 "Unprocessable Entity", initial []).
Proof.
  split.
  - destruct (omitted_fields_take_defaults sample_body "job-1" "t" (initial []))
      as (H & _).
    destruct (H _ _ eq_refl eq_refl) as (_ & -> & _). reflexivity.
  - destruct (omitted_fields_take_defaults
                {| body_characterImageUrl := None;
                   body_script := Some "Hello"%string;
                   body_duration := Some 3%Z; body_quality := None |}
                "job-2" "t" (initial [])) as (_ & H).
    apply H. left. reflexivity.
Defined.

(** * Further properties of the code *)

(** ** One attempt, answer by answer *)

Section MoreAnswers.
Variable env : Env.
Variable generation_id : string.
Variable request : PostRequest.

Lemma requests_post_failed (reason : string) (rest : list PostResult)
    (w : World) :
  network w = RequestFailed reason :: rest ->
  requests_post request w
  = (Raise (RequestException reason), answered request rest w).
Proof. intros H. unfold requests_post. now rewrite H. Qed.


Lemma fail_with_status_detail (r : Response) (w : World) :
  fail_with_status r w
  = (Raise (Exception (ApiRequestFailed (status_code r) (error_detail r))), w).
Proof.
  unfold fail_with_status, error_detail, try_except, bind, response_json.
  destruct (json_body r) as [[ |b|q|s|items|members]|]; try reflexivity.
Qed.


(** A status that is neither 200 nor 503 raises at once. *)
Lemma attempt_once_status_error (attempt : nat) (retry_delay : Q)
    (r : Response) (rest : list PostResult) (w : World) :
  status_code r <> 200%Z ->
  status_code r <> 503%Z ->
  network w = Responded r :: rest ->
  attempt_once env generation_id request attempt retry_delay w
  = (Raise (Exception (ApiRequestFailed (status_code r) (error_detail r))),
     answered request rest w).
Proof.
  intros H200 H503 Hnet.
  unfold attempt_once, try_except, attempt_body. unfold bind at 1.
  rewrite (requests_post_answered request r rest w Hnet). unfold bind at 1.
  apply Z.eqb_neq in H200, H503. rewrite H503. unfold ret at 1.
  rewrite H200. cbn [negb]. unfold bind at 1.
  rewrite fail_with_status_detail. reflexivity.
Qed.

(** A network error before the last attempt: one sleep of the current
    default, then [continue]. *)
Lemma attempt_once_network_error (attempt : nat) (retry_delay : Q)
    (reason : string) (rest : list PostResult) (w : World) :
  (attempt <? max_retries - 1)%nat = true ->
  network w = RequestFailed reason :: rest ->
  attempt_once env generation_id request attempt retry_delay w
  = (Ok (Continue (Qred (retry_delay * (3 # 2)))),
     log_effect (Sleep retry_delay) (answered request rest w)).
Proof.
  intros Hlt Hnet.
  unfold attempt_once, try_except, attempt_body. unfold bind at 1.
  rewrite (requests_post_failed reason rest w Hnet).
  unfold except_RequestException. rewrite Hlt. reflexivity.
Qed.

(** A network error at the last attempt is raised again. *)
Lemma attempt_once_network_error_last (attempt : nat) (retry_delay : Q)
    (reason : string) (rest : list PostResult) (w : World) :
  (attempt <? max_retries - 1)%nat = false ->
  network w = RequestFailed reason :: rest ->
  attempt_once env generation_id request attempt retry_delay w
  = (Raise (RequestException reason), answered request rest w).
Proof.
  intros Hlt Hnet.
  unfold attempt_once, try_except, attempt_body. unfold bind at 1.
  rewrite (requests_post_failed reason rest w Hnet).
  unfold except_RequestException. rewrite Hlt. reflexivity.
Qed.

(** A 200 that passes the check but cannot be saved raises what the saving
    raises. *)
Lemma attempt_once_save_raises (attempt : nat) (retry_delay : Q) (r : Response)
    (rest : list PostResult) (e : exn) (w w1 : World) :
  status_code r = 200%Z ->
  check_video_content r (answered request rest w)
  = (Ok tt, answered request rest w) ->
  save_video env generation_id r (answered request rest w) = (Raise e, w1) ->
  (forall reason, e <> RequestException reason) ->
  network w = Responded r :: rest ->
  attempt_once env generation_id request attempt retry_delay w = (Raise e, w1).
Proof.
  intros Hcode Hcheck Hsave He Hnet.
  unfold attempt_once, try_except, attempt_body. unfold bind at 1.
  rewrite (requests_post_answered request r rest w Hnet). unfold bind at 1.
  rewrite Hcode. cbn [Z.eqb Pos.eqb negb]. unfold ret at 1. cbv iota.
  unfold bind at 1. rewrite Hcheck. unfold bind at 1. rewrite Hsave.
  destruct e; try reflexivity. exfalso. eapply He. reflexivity.
Qed.

Lemma check_video_content_json (r : Response) (v : json) (w : World) :
  video_content_type r = false ->
  json_body r = Some v ->
  check_video_content r w = (Raise (Exception (NonVideoResponse v)), w).
Proof.
  unfold video_content_type, check_video_content. intros Hct Hj.
  rewrite <- negb_orb, Hct. cbn [negb].
  unfold try_except, bind, response_json. rewrite Hj. reflexivity.
Qed.

Lemma save_video_unwritable (r : Response) (w : World) :
  writable env (video_path_of generation_id) = false ->
  save_video env generation_id r w
  = (Raise (OSError (video_path_of generation_id)), w).
Proof.
  intros Hw. unfold save_video, bind, write_file.
  fold (video_path_of generation_id). rewrite Hw. reflexivity.
Qed.

Lemma save_video_empty (r : Response) (w : World) :
  content r = [] ->
  writable env (video_path_of generation_id) = true ->
  save_video env generation_id r w
  = (Raise (Exception EmptyVideoFile),
     {| generations := generations w;
        files := dict_set (video_path_of generation_id) [] (files w);
        network := network w;
        log := FileWrite (video_path_of generation_id) [] :: log w |}).
Proof.
  intros Hc Hw.
  unfold save_video, bind, write_file, os_path_exists, os_path_getsize.
  fold (video_path_of generation_id). rewrite Hw, Hc.
  cbn [files]. rewrite dict_mem_set_same. cbn [negb files].
  rewrite dict_get_set_same. reflexivity.
Qed.
End MoreAnswers.

(** ** Whole runs *)

Section MoreRuns.
Variable env : Env.
Variable generation_id : string.

(** When the first attempt raises, so does the body. *)
Lemma process_body_first_attempt_raises (g : VideoGeneration)
    (image_data : list byte) (e : exn) (w w1 : World) :
  truthy (HF_TOKEN env) = true ->
  dict_get generation_id (generations w) = Some g ->
  dict_get (image_path_of g) (files w) = Some image_data ->
  attempt_once env generation_id
    (svd_request (token_of env) (with_status processing g) image_data)
    0 20 (started generation_id g w)
  = (Raise e, w1) ->
  process_body env generation_id w = (Raise e, w1).
Proof.
  intros Htok Hg Hfile Ha.
  rewrite (process_body_with_token env generation_id g image_data w Htok Hg Hfile).
  unfold max_retries at 1. cbn [seq retry_loop]. unfold bind at 1.
  rewrite Ha. reflexivity.
Qed.

(** When the body raises without having written the store since the claim,
    the controller marks the job failed and returns. *)
Lemma process_fails_when_body_raises (g : VideoGeneration) (e : exn)
    (w w1 : World) :
  process_body env generation_id w = (Raise e, w1) ->
  generations w1 = generations (started generation_id g w) ->
  process_video_generation env generation_id w
  = (Ok tt, marked_failed generation_id (with_status processing g) w1).
Proof.
  intros Hb Hgen. unfold process_video_generation, try_except.
  rewrite Hb. cbn [except_all].
  apply set_status_present. rewrite Hgen. apply started_record.
Qed.

Lemma status_of_marked_failed (g : VideoGeneration) (w : World) :
  status_of generation_id (generations (marked_failed generation_id g w))
  = Some failed.
Proof.
  unfold status_of, marked_failed. cbn [generations].
  now rewrite dict_get_set_same.
Qed.
End MoreRuns.

(** ** The controller against other answers *)

(** X2. With a credential and the image on disk, an answer whose status is
    neither 200 nor 503 is not retried: the controller sends that one
    request, sleeps not at all, raises the API error with the status and the
    detail of the payload, and the job ends failed. *)
Theorem api_error_is_not_retried (env : Env) (generation_id : string)
    (g : VideoGeneration) (w : World) (r : Response) (rest : list PostResult) :
  dict_get generation_id (generations w) = Some g ->
  truthy (HF_TOKEN env) = true ->
  dict_mem (image_path_of g) (files w) = true ->
  network w = Responded r :: rest ->
  status_code r <> 200%Z ->
  status_code r <> 503%Z ->
  let run := process_video_generation env generation_id w in
  fst (process_body env generation_id w)
  = Raise (Exception (ApiRequestFailed (status_code r) (error_detail r)))
  /\ fst run = Ok tt
  /\ List.length (requests (new_effects w (snd run))) = 1%nat
  /\ sleeps (new_effects w (snd run)) = []
  /\ network (snd run) = rest
  /\ status_of generation_id (generations (snd run)) = Some failed.
Proof.
  intros Hg Htok Himg Hnet H200 H503 run. subst run.
  destruct (image_on_disk g w Himg) as (image_data & Hfile).
  pose proof (process_body_first_attempt_raises env generation_id g image_data
                _ w _ Htok Hg Hfile
                (attempt_once_status_error env generation_id _ 0 20 r rest
                   (started generation_id g w) H200 H503 Hnet)) as Hb.
  rewrite (process_fails_when_body_raises env generation_id g _ w _ Hb eq_refl).
  rewrite Hb. cbn [fst snd]. rewrite status_of_marked_failed.
  erewrite (new_effects_app w _ [_; _; _]) by reflexivity.
  repeat split.
Qed.

Lemma api_error_is_not_retried_witness :
  let r :=
    {| status_code := 401; content_type := None; content := [];
       json_body := Some (JObj [("error"%string, JStr "Unauthorized")]);
       text := "" |} in
  let w :=
    with_network [Responded r; Responded sample_video] (world sample_system) in
  let run := process_video_generation sample_env "job-1" w in
  fst (process_body sample_env "job-1" w)
  = Raise (Exception (ApiRequestFailed 401 (JStr "Unauthorized")))
  /\ network (snd run) = [Responded sample_video]
  /\ status_of "job-1" (generations (snd run)) = Some failed.
Proof.
  intros r w run.
  assert (status_code r <> 200%Z) as H200 by discriminate.
  assert (status_code r <> 503%Z) as H503 by discriminate.
  destruct (api_error_is_not_retried sample_env "job-1" sample_job w r
              [Responded sample_video] eq_refl eq_refl eq_refl eq_refl H200 H503)
    as (Hb & _ & _ & _ & Hn & Hs).
  split; [exact Hb|]. split; [exact Hn|exact Hs].
Defined.

(** X3. With a credential and the image on disk, if the three requests all
    fail at the network level, the controller sends exactly three requests,
    sleeps 20 and then 30 between them, raises the last network error, and
    the job ends failed. *)
Theorem network_errors_exhaust_the_attempts (env : Env)
    (generation_id : string) (g : VideoGeneration) (w : World)
    (e1 e2 e3 : string) (rest : list PostResult) :
  dict_get generation_id (generations w) = Some g ->
  truthy (HF_TOKEN env) = true ->
  dict_mem (image_path_of g) (files w) = true ->
  network w = RequestFailed e1 :: RequestFailed e2 :: RequestFailed e3 :: rest ->
  let run := process_video_generation env generation_id w in
  fst (process_body env generation_id w) = Raise (RequestException e3)
  /\ fst run = Ok tt
  /\ List.length (requests (new_effects w (snd run))) = 3%nat
  /\ sleeps (new_effects w (snd run)) = [20%Q; 30%Q]
  /\ network (snd run) = rest
  /\ status_of generation_id (generations (snd run)) = Some failed.
Proof.
  intros Hg Htok Himg Hnet run. subst run.
  destruct (image_on_disk g w Himg) as (image_data & Hfile).
  set (request := svd_request (token_of env) (with_status processing g) image_data).
  assert (process_body env generation_id w
          = (Raise (RequestException e3),
             answered request rest
               (log_effect (Sleep 30)
                  (answered request (RequestFailed e3 :: rest)
                     (log_effect (Sleep 20)
                        (answered request
                           (RequestFailed e2 :: RequestFailed e3 :: rest)
                           (started generation_id g w))))))) as Hb.
  { rewrite (process_body_with_token env generation_id g image_data w Htok Hg Hfile).
    fold request. unfold max_retries at 1. cbn [seq retry_loop].
    unfold bind at 1.
    rewrite (attempt_once_network_error env generation_id request 0 20 e1
               (RequestFailed e2 :: RequestFailed e3 :: rest)
               (started generation_id g w) eq_refl Hnet).
    change (Qred (20 * (3 # 2))) with 30%Q. unfold bind at 1.
    rewrite (attempt_once_network_error env generation_id request 1 30 e2
               (RequestFailed e3 :: rest)
               (log_effect (Sleep 20)
                  (answered request
                     (RequestFailed e2 :: RequestFailed e3 :: rest)
                     (started generation_id g w))) eq_refl eq_refl).
    unfold bind at 1.
    rewrite (attempt_once_network_error_last env generation_id request 2
               (Qred (30 * (3 # 2))) e3 rest
               (log_effect (Sleep 30)
                  (answered request (RequestFailed e3 :: rest)
                     (log_effect (Sleep 20)
                        (answered request
                           (RequestFailed e2 :: RequestFailed e3 :: rest)
                           (started generation_id g w))))) eq_refl eq_refl).
    reflexivity. }
  rewrite (process_fails_when_body_raises env generation_id g _ w _ Hb eq_refl).
  rewrite Hb. cbn [fst snd]. rewrite status_of_marked_failed.
  erewrite (new_effects_app w _ [_; _; _; _; _; _; _]) by reflexivity.
  repeat split.
Qed.

Lemma network_errors_exhaust_the_attempts_witness :
  let w :=
    with_network
      [RequestFailed "timeout"; RequestFailed "timeout";
       RequestFailed "connection reset"; Responded sample_video]
      (world sample_system) in
  let run := process_video_generation sample_env "job-1" w in
  fst (process_body sample_env "job-1" w)
  = Raise (RequestException "connection reset")
  /\ sleeps (new_effects w (snd run)) = [20%Q; 30%Q]
  /\ status_of "job-1" (generations (snd run)) = Some failed.
Proof.
  intros w run.
  destruct (network_errors_exhaust_the_attempts sample_env "job-1" sample_job w
              "timeout" "timeout" "connection reset" [Responded sample_video]
              eq_refl eq_refl eq_refl eq_refl)
    as (Hb & _ & _ & Hsl & _ & Hs).
  split; [exact Hb|]. split; [exact Hsl|exact Hs].
Defined.

(** X4. A network error before the last attempt is recovered from: if the
    first request fails at the network level and the second is answered 200
    with a non-empty video that can be saved, the controller sleeps 20 once,
    sends two requests and completes the job with the saved video. *)
Theorem network_error_then_video_completes (env : Env)
    (generation_id : string) (g : VideoGeneration) (w : World)
    (reason : string) (r : Response) (rest : list PostResult) :
  dict_get generation_id (generations w) = Some g ->
  truthy (HF_TOKEN env) = true ->
  dict_mem (image_path_of g) (files w) = true ->
  network w = RequestFailed reason :: Responded r :: rest ->
  status_code r = 200%Z -> video_content_type r = true ->
  content r <> [] ->
  writable env (video_path_of generation_id) = true ->
  let run := process_video_generation env generation_id w in
  fst run = Ok tt
  /\ List.length (requests (new_effects w (snd run))) = 2%nat
  /\ sleeps (new_effects w (snd run)) = [20%Q]
  /\ network (snd run) = rest
  /\ status_of generation_id (generations (snd run)) = Some completed
  /\ dict_get (video_path_of generation_id) (files (snd run))
     = Some (content r).
Proof.
  intros Hg Htok Himg Hnet Hcode Hct Hne Hw run. subst run.
  destruct (image_on_disk g w Himg) as (image_data & Hfile).
  set (request := svd_request (token_of env) (with_status processing g) image_data).
  assert (process_body env generation_id w
          = (Ok tt,
             saved generation_id (with_status processing g) (content r)
               (answered request rest
                  (log_effect (Sleep 20)
                     (answered request (Responded r :: rest)
                        (started generation_id g w)))))) as Hb.
  { rewrite (process_body_with_token env generation_id g image_data w Htok Hg Hfile).
    fold request. unfold max_retries at 1. cbn [seq retry_loop].
    unfold bind at 1.
    rewrite (attempt_once_network_error env generation_id request 0 20 reason
               (Responded r :: rest) (started generation_id g w) eq_refl Hnet).
    unfold bind at 1.
    rewrite (attempt_once_video env generation_id request 1
               (Qred (20 * (3 # 2))) r rest (with_status processing g)
               (log_effect (Sleep 20)
                  (answered request (Responded r :: rest)
                     (started generation_id g w))) Hcode
               (check_video_content_accepts r _ Hct) Hne Hw
               (started_record generation_id g w) eq_refl).
    reflexivity. }
  unfold process_video_generation, try_except. rewrite Hb. cbn [fst snd].
  erewrite (new_effects_app w _ [_; _; _; _; _; _]) by reflexivity.
  unfold status_of, saved. cbn [generations files].
  rewrite !dict_get_set_same. repeat split.
Qed.

Lemma network_error_then_video_completes_witness :
  let w :=
    with_network [RequestFailed "timeout"; Responded sample_video]
      (world sample_system) in
  let run := process_video_generation sample_env "job-1" w in
  sleeps (new_effects w (snd run)) = [20%Q]
  /\ status_of "job-1" (generations (snd run)) = Some completed.
Proof.
  intros w run.
  assert (content sample_video <> []) as Hne by discriminate.
  destruct (network_error_then_video_completes sample_env "job-1" sample_job w
              "timeout" sample_video [] eq_refl eq_refl eq_refl eq_refl eq_refl
              eq_refl Hne eq_refl)
    as (_ & _ & Hsl & _ & Hs & _).
  split; [exact Hsl|exact Hs].
Defined.



(** X6. With a credential and the image on disk, a 200 answer whose content
    type is neither video nor octet-stream and whose body is JSON fails the
    job whatever its size: the controller raises the non-video error that
    carries the parsed body, writes no file and sends no second request. *)
Theorem json_answer_fails_the_job (env : Env) (generation_id : string)
    (g : VideoGeneration) (w : World) (r : Response) (v : json)
    (rest : list PostResult) :
  dict_get generation_id (generations w) = Some g ->
  truthy (HF_TOKEN env) = true ->
  dict_mem (image_path_of g) (files w) = true ->
  network w = Responded r :: rest ->
  status_code r = 200%Z ->
  video_content_type r = false ->
  json_body r = Some v ->
  let run := process_video_generation env generation_id w in
  fst (process_body env generation_id w) = Raise (Exception (NonVideoResponse v))
  /\ fst run = Ok tt
  /\ List.length (requests (new_effects w (snd run))) = 1%nat
  /\ files (snd run) = files w
  /\ network (snd run) = rest
  /\ status_of generation_id (generations (snd run)) = Some failed.
Proof.
  intros Hg Htok Himg Hnet Hcode Hct Hj run. subst run.
  destruct (image_on_disk g w Himg) as (image_data & Hfile).
  pose proof (process_body_first_attempt_raises env generation_id g image_data
                _ w _ Htok Hg Hfile
                (attempt_once_rejected env generation_id _ 0 20 r rest
                   (NonVideoResponse v) (started generation_id g w) Hcode
                   (check_video_content_json r v _ Hct Hj) Hnet)) as Hb.
  rewrite (process_fails_when_body_raises env generation_id g _ w _ Hb eq_refl).
  rewrite Hb. cbn [fst snd]. rewrite status_of_marked_failed.
  erewrite (new_effects_app w _ [_; _; _]) by reflexivity.
  repeat split.
Qed.

Lemma json_answer_fails_the_job_witness :
  let r :=
    {| status_code := 200; content_type := Some "application/json"%string;
       content := repeat x20 2000;
       json_body := Some (JObj [("error"%string, JStr "Model too busy")]);
       text := "" |} in
  let w := with_network [Responded r] (world sample_system) in
  let run := process_video_generation sample_env "job-1" w in
  (1000 <= List.length (content r))%nat
  /\ status_of "job-1" (generations (snd run)) = Some failed.
Proof.
  intros r w run. split.
  - cbn [content r]. rewrite repeat_length. lia.
  - destruct (json_answer_fails_the_job sample_env "job-1" sample_job w r
                (JObj [("error"%string, JStr "Model too busy")]) []
                eq_refl eq_refl eq_refl eq_refl eq_refl eq_refl eq_refl)
      as (_ & _ & _ & _ & _ & Hs).
    exact Hs.
Defined.

(** X7. With a credential and the image on disk, a 200 answer with a video
    content type and an empty body fails the job with the empty-file error,
    and leaves the empty video file it wrote on disk. *)
Theorem empty_video_fails_the_job (env : Env) (generation_id : string)
    (g : VideoGeneration) (w : World) (r : Response) (rest : list PostResult) :
  dict_get generation_id (generations w) = Some g ->
  truthy (HF_TOKEN env) = true ->
  dict_mem (image_path_of g) (files w) = true ->
  network w = Responded r :: rest ->
  status_code r = 200%Z ->
  video_content_type r = true ->
  content r = [] ->
  writable env (video_path_of generation_id) = true ->
  let run := process_video_generation env generation_id w in
  fst (process_body env generation_id w) = Raise (Exception EmptyVideoFile)
  /\ fst run = Ok tt
  /\ dict_get (video_path_of generation_id) (files (snd run)) = Some []
  /\ status_of generation_id (generations (snd run)) = Some failed
  /\ videoUrl_of generation_id (generations (snd run)) = Some (videoUrl g).
Proof.
  intros Hg Htok Himg Hnet Hcode Hct Hc Hw run. subst run.
  destruct (image_on_disk g w Himg) as (image_data & Hfile).
  assert (forall reason, Exception EmptyVideoFile <> RequestException reason)
    as Hne by discriminate.
  pose proof (process_body_first_attempt_raises env generation_id g image_data
                _ w _ Htok Hg Hfile
                (attempt_once_save_raises env generation_id _ 0 20 r rest _
                   (started generation_id g w) _ Hcode
                   (check_video_content_accepts r _ Hct)
                   (save_video_empty env generation_id r _ Hc Hw) Hne Hnet))
    as Hb.
  rewrite (process_fails_when_body_raises env generation_id g _ w _ Hb eq_refl).
  rewrite Hb. cbn [fst snd]. rewrite status_of_marked_failed.
  unfold videoUrl_of, marked_failed. cbn [generations files].
  rewrite !dict_get_set_same. repeat split.
Qed.

Lemma empty_video_fails_the_job_witness :
  let r :=
    {| status_code := 200; content_type := Some "video/mp4"%string;
       content := []; json_body := None; text := "" |} in
  let w := with_network [Responded r] (world sample_system) in
  let run := process_video_generation sample_env "job-1" w in
  dict_get (video_path_of "job-1") (files (snd run)) = Some []
  /\ status_of "job-1" (generations (snd run)) = Some failed.
Proof.
  intros r w run.
  destruct (empty_video_fails_the_job sample_env "job-1" sample_job w r []
              eq_refl eq_refl eq_refl eq_refl eq_refl eq_refl eq_refl eq_refl)
    as (_ & _ & Hf & Hs & _).
  split; [exact Hf|exact Hs].
Defined.

(** X8. When the video file cannot be opened for writing, the job fails and
    the files are as they were, with a credential (after a 200 answer that
    carries a video) as well as without one (in the fallback generator,
    after its sleep of 10). *)
Theorem unwritable_video_fails_the_job (env : Env) (generation_id : string)
    (g : VideoGeneration) (w : World) :
  dict_get generation_id (generations w) = Some g ->
  writable env (video_path_of generation_id) = false ->
  let run := process_video_generation env generation_id w in
  (truthy (HF_TOKEN env) = false ->
     fst run = Ok tt
     /\ sleeps (new_effects w (snd run)) = [10%Q]
     /\ files (snd run) = files w
     /\ status_of generation_id (generations (snd run)) = Some failed
     /\ videoUrl_of generation_id (generations (snd run)) = Some (videoUrl g))
  /\ (forall r rest,
        truthy (HF_TOKEN env) = true ->
        dict_mem (image_path_of g) (files w) = true ->
        network w = Responded r :: rest ->
        status_code r = 200%Z ->
        video_content_type r = true ->
        fst (process_body env generation_id w)
        = Raise (OSError (video_path_of generation_id))
        /\ fst run = Ok tt
        /\ files (snd run) = files w
        /\ status_of generation_id (generations (snd run)) = Some failed
        /\ videoUrl_of generation_id (generations (snd run))
           = Some (videoUrl g)).
Proof.
  intros Hg Hw run. subst run. split.
  - intros Htok.
    assert (process_video_generation env generation_id w
            = (Ok tt,
               marked_failed generation_id (with_status processing g)
                 (log_effect (Sleep 10) (started generation_id g w)))) as Hrun.
    { unfold process_video_generation, try_except.
      rewrite (process_body_without_token env generation_id g w Htok Hg).
      unfold mock_video_generation, try_except, mock_body.
      unfold bind at 1, time_sleep at 1. unfold bind at 1, write_file at 1.
      fold (video_path_of generation_id). rewrite Hw. cbn [except_all].
      rewrite (set_status_present generation_id failed
                 (with_status processing g)); [reflexivity|].
      apply started_record. }
    rewrite Hrun. cbn [fst snd]. rewrite status_of_marked_failed.
    unfold videoUrl_of, marked_failed. cbn [generations files].
    rewrite dict_get_set_same.
    erewrite (new_effects_app w _ [_; _; _]) by reflexivity.
    repeat split.
  - intros r rest Htok Himg Hnet Hcode Hct.
    destruct (image_on_disk g w Himg) as (image_data & Hfile).
    assert (forall reason,
              OSError (video_path_of generation_id) <> RequestException reason)
      as Hne by discriminate.
    pose proof (process_body_first_attempt_raises env generation_id g image_data
                  _ w _ Htok Hg Hfile
                  (attempt_once_save_raises env generation_id _ 0 20 r rest _
                     (started generation_id g w) _ Hcode
                     (check_video_content_accepts r _ Hct)
                     (save_video_unwritable env generation_id r _ Hw) Hne Hnet))
      as Hb.
    rewrite (process_fails_when_body_raises env generation_id g _ w _ Hb eq_refl).
    rewrite Hb. cbn [fst snd]. rewrite status_of_marked_failed.
    unfold videoUrl_of, marked_failed. cbn [generations files].
    rewrite !dict_get_set_same. repeat split.
Qed.

Lemma unwritable_video_fails_the_job_witness :
  let read_only := fun token =>
    {| HF_TOKEN := token; writable := fun _ => false |} in
  status_of "job-1"
    (generations
       (snd (process_video_generation (read_only None) "job-1"
               (world sample_system))))
  = Some failed
  /\ status_of "job-1"
       (generations
          (snd (process_video_generation (read_only (Some "hf_sample"%string))
                  "job-1"
                  (with_network [Responded sample_video] (world sample_system)))))
     = Some failed.
Proof.
  intros read_only. split.
  - destruct (unwritable_video_fails_the_job (read_only None) "job-1" sample_job
                (world sample_system) eq_refl eq_refl) as (H & _).
    destruct (H eq_refl) as (_ & _ & _ & Hs & _). exact Hs.
  - destruct (unwritable_video_fails_the_job
                (read_only (Some "hf_sample"%string)) "job-1" sample_job
                (with_network [Responded sample_video] (world sample_system))
                eq_refl eq_refl) as (_ & H).
    destruct (H sample_video [] eq_refl eq_refl eq_refl eq_refl eq_refl)
      as (_ & _ & _ & Hs & _).
    exact Hs.
Defined.



(** X10. Run on an identifier the store does not hold, the controller
    changes nothing and lets a [KeyError] out: the handler of its
    [except Exception] clause raises it again. *)
Theorem unknown_job_raises_KeyError (env : Env) (generation_id : string)
    (w : World) :
  dict_get generation_id (generations w) = None ->
  process_video_generation env generation_id w
  = (Raise (KeyError generation_id), w).
Proof.
  intros Hg.
  unfold process_video_generation, try_except, process_body, bind, set_status,
    bind, store_lookup.
  rewrite Hg. cbn [except_all]. rewrite Hg. reflexivity.
Qed.

Lemma unknown_job_raises_KeyError_witness :
  process_video_generation sample_env "job-9" (world sample_system)
  = (Raise (KeyError "job-9"), world sample_system).
Proof.
  exact (unknown_job_raises_KeyError sample_env "job-9" (world sample_system)
           eq_refl).
Defined.

(** ** What a run leaves in the store and on disk *)

Lemma dict_keys_set (V : Type) (k : string) (v : V) (d : dict V) :
  dict_mem k d = true -> dict_keys (dict_set k v d) = dict_keys d.
Proof.
  unfold dict_mem, dict_keys. induction d as [|[k' v'] d IH]; simpl.
  - discriminate.
  - destruct (String.eqb_spec k k') as [->|Hne]; simpl; [reflexivity|].
    intros H. now rewrite IH.
Qed.

(** X11. A run of the controller on a job of the store rewrites that job's
    record and nothing else: the store keeps its keys and their order, every
    other record is as it was, and the job keeps its identifier, image
    locator, script, duration, quality and creation time, with a status
    that is now completed or failed. *)
Theorem controller_touches_only_its_job (env : Env) (generation_id : string)
    (g : VideoGeneration) (w : World) :
  dict_get generation_id (generations w) = Some g ->
  let s' := generations (snd (process_video_generation env generation_id w)) in
  dict_keys s' = dict_keys (generations w)
  /\ (forall k, k <> generation_id -> dict_get k s' = dict_get k (generations w))
  /\ exists g',
       dict_get generation_id s' = Some g'
       /\ inputs_of g' = inputs_of g
       /\ terminal (status g') = true.
Proof.
  intros Hg s'. subst s'.
  destruct (process_video_generation_cases env generation_id g w Hg)
    as (w' & -> & Hw). cbn [snd].
  assert (exists f,
            wrote (frames_of g) generation_id f (started generation_id g w) w'
            /\ inputs_of (f (with_status processing g)) = inputs_of g
            /\ terminal (status (f (with_status processing g))) = true)
    as (f & Hf & Hin & Hterm).
  { destruct Hw as [Hw|Hw]; eexists; (split; [exact Hw|]); split; reflexivity. }
  destruct (wrote_new_effects generation_id _ f g w w' Hf)
    as (middle & _ & _ & _ & ->).
  split; [|split].
  - apply dict_keys_set. unfold dict_mem. now rewrite Hg.
  - intros k Hne. apply dict_get_set_other. congruence.
  - eexists. split; [apply dict_get_set_same|]. split; assumption.
Qed.

Lemma controller_touches_only_its_job_witness :
  let w :=
    with_network [Responded sample_video; Responded sample_video]
      (world (handle (TaskStarts "job-1") sample_done)) in
  let s' := generations (snd (process_video_generation sample_env "job-2" w)) in
  dict_keys s' = ["job-1"; "job-2"]%string
  /\ dict_get "job-1" s' = dict_get "job-1" (generations w).
Proof.
  intros w s'.
  destruct (controller_touches_only_its_job sample_env "job-2"
              {| id := "job-2";
                 characterImageUrl := "/uploads/character_1.jpg";
                 script := "Hello"; duration := 5; quality := "768";
                 videoUrl := None; status := pending;
                 createdAt := "2024-05-01T10:05:00.000Z" |}
              w eq_refl) as (Hk & Ho & _).
  split; [exact Hk|]. apply Ho. discriminate.
Defined.

Section Artifacts.
Variable env : Env.
Variable generation_id : string.

Lemma files_kept_refl (w : World) : files_kept generation_id w w.
Proof. intros path _. reflexivity. Qed.

Lemma files_kept_same (w w' : World) :
  files w' = files w -> files_kept generation_id w w'.
Proof. intros H path _. now rewrite H. Qed.

Lemma files_kept_trans (w1 w2 w3 : World) :
  files_kept generation_id w1 w2 -> files_kept generation_id w2 w3 ->
  files_kept generation_id w1 w3.
Proof. intros H1 H2 path Hne. now rewrite H2, H1. Qed.

Lemma set_status_files (st : Status) (w : World) :
  files (snd (set_status generation_id st w)) = files w.
Proof.
  unfold set_status, bind, store_lookup, store_write.
  destruct (dict_get generation_id (generations w)); reflexivity.
Qed.

Lemma update_generation_files (st : Status) (u : string) (w : World) :
  files (snd (update_generation generation_id st u w)) = files w.
Proof.
  unfold update_generation, bind, store_lookup, store_write.
  destruct (dict_get generation_id (generations w)); reflexivity.
Qed.

Lemma files_kept_video (data : list byte) (w w' : World) :
  files w' = dict_set (video_path_of generation_id) data (files w) ->
  files_kept generation_id w w'.
Proof.
  intros H path Hne. rewrite H. apply dict_get_set_other. congruence.
Qed.

Lemma save_video_artifact (response : Response) (w : World) :
  match save_video env generation_id response w with
  | (Ok _, w') => files_kept generation_id w w' /\ artifact_saved generation_id w'
  | (Raise _, w') => files_kept generation_id w w'
  end.
Proof.
  unfold save_video, bind, write_file, os_path_exists, os_path_getsize.
  fold (video_path_of generation_id).
  destruct (writable env _); [|apply files_kept_refl].
  cbn [files]. rewrite dict_mem_set_same. cbn [negb files].
  rewrite dict_get_set_same. unfold ret, raise.
  destruct (content response) as [|b data] eqn:Hc; cbn [List.length Nat.eqb].
  - now apply (files_kept_video []).
  - match goal with
    | |- context [update_generation generation_id ?st ?u ?w1] =>
        pose proof (update_generation_files st u w1) as H;
        destruct (update_generation generation_id st u w1) as [[[]|e] w2]
    end; cbn [fst snd files] in H.
    + split; [now apply (files_kept_video (b :: data))|].
      exists (b :: data). rewrite H. split; [apply dict_get_set_same|discriminate].
    + now apply (files_kept_video (b :: data)).
Qed.

Lemma attempt_body_artifact (request : PostRequest) (attempt : nat)
    (retry_delay : Q) (w : World) :
  match attempt_body env generation_id request attempt retry_delay w with
  | (Ok Return, w') =>
      files_kept generation_id w w' /\ artifact_saved generation_id w'
  | (_, w') => files_kept generation_id w w'
  end.
Proof.
  unfold attempt_body. unfold bind at 1.
  assert (files (snd (requests_post request w)) = files w) as Hp.
  { unfold requests_post. destruct (network w) as [|[r|reason] rest]; reflexivity. }
  destruct (requests_post request w) as [[response|e] w1]; cbn [snd] in Hp;
    [|now apply files_kept_same].
  unfold bind at 1.
  assert (exists w2 again,
    (if (status_code response =? 503)%Z
     then wait_for_model response retry_delay ;;
          ret (attempt <? max_retries - 1)%nat
     else ret false) w1 = (Ok again, w2)
    /\ files w2 = files w) as (w2 & again & -> & H2).
  { destruct (status_code response =? 503)%Z.
    - destruct (wait_for_model_sleeps response retry_delay w1) as (x & Hw & _).
      unfold bind. rewrite Hw. unfold ret. do 2 eexists.
      split; [reflexivity|exact Hp].
    - exists w1, false. split; [reflexivity|exact Hp]. }
  destruct again; [now apply files_kept_same|].
  destruct (negb _).
  - destruct (fail_with_status_raises response w2) as (detail & Hf).
    unfold bind. rewrite Hf. now apply files_kept_same.
  - unfold bind at 1.
    pose proof (check_video_content_pure response w2) as Hc.
    destruct (check_video_content response w2) as [[[]|e] w3];
      cbn [snd] in Hc; subst w3; [|now apply files_kept_same].
    unfold bind at 1.
    pose proof (save_video_artifact response w2) as Hs.
    assert (files_kept generation_id w w2) as Hk2 by (now apply files_kept_same).
    destruct (save_video env generation_id response w2) as [[[]|e] w4].
    + destruct Hs as [Hk Ha]. split; [eapply files_kept_trans; eauto|exact Ha].
    + eapply files_kept_trans; eauto.
Qed.

Lemma attempt_once_artifact (request : PostRequest) (attempt : nat)
    (retry_delay : Q) (w : World) :
  match attempt_once env generation_id request attempt retry_delay w with
  | (Ok Return, w') =>
      files_kept generation_id w w' /\ artifact_saved generation_id w'
  | (_, w') => files_kept generation_id w w'
  end.
Proof.
  unfold attempt_once, try_except.
  pose proof (attempt_body_artifact request attempt retry_delay w) as Hb.
  destruct (attempt_body env generation_id request attempt retry_delay w)
    as [[flow|e] w1]; [exact Hb|].
  destruct e; unfold except_RequestException; try exact Hb.
  destruct (attempt <? max_retries - 1)%nat; [|exact Hb].
  unfold bind, time_sleep, ret.
  eapply files_kept_trans; [exact Hb|]. now apply files_kept_same.
Qed.

Lemma retry_loop_artifact (request : PostRequest) (attempts : list nat)
    (retry_delay : Q) (w : World) :
  match retry_loop env generation_id request attempts retry_delay w with
  | (Ok _, w') =>
      files_kept generation_id w w'
      /\ (artifact_saved generation_id w'
          \/ Forall (fun attempt => (attempt < max_retries - 1)%nat) attempts)
  | (Raise _, w') => files_kept generation_id w w'
  end.
Proof.
  revert retry_delay w.
  induction attempts as [|attempt rest IH]; intros retry_delay w.
  - cbn. split; [apply files_kept_refl|right; constructor].
  - cbn [retry_loop]. unfold bind.
    pose proof (attempt_once_artifact request attempt retry_delay w) as Ha.
    pose proof (attempt_once_cases (fun _ => True) env generation_id request
                  attempt retry_delay w I) as Hc.
    destruct (attempt_once env generation_id request attempt retry_delay w)
      as [[[d|]|e] w1].
    + specialize (IH d w1).
      destruct (retry_loop env generation_id request rest d w1) as [[[]|e] w2].
      * destruct IH as [Hk' Ha']. split; [eapply files_kept_trans; eauto|].
        destruct Ha' as [Ha'|Hall]; [now left|right].
        constructor; [apply Hc|exact Hall].
      * eapply files_kept_trans; eauto.
    + destruct Ha as [Hk Ha]. split; [exact Hk|now left].
    + exact Ha.
Qed.

Lemma mp4_data_not_empty : mp4_data <> [].
Proof. discriminate. Qed.

Lemma mock_video_generation_artifact (g : VideoGeneration) (w : World) :
  dict_get generation_id (generations w) = Some g ->
  exists w',
    mock_video_generation env generation_id w = (Ok tt, w')
    /\ files_kept generation_id w w'
    /\ (artifact_saved generation_id w'
        \/ status_of generation_id (generations w') = Some failed).
Proof.
  intros Hg.
  unfold mock_video_generation, try_except, mock_body.
  unfold bind at 1, time_sleep at 1. unfold bind at 1, write_file at 1.
  fold (video_path_of generation_id).
  destruct (writable env _).
  - rewrite (update_generation_present generation_id completed _ g);
      [|exact Hg].
    eexists. split; [reflexivity|]. cbn [files]. split.
    + now apply (files_kept_video mp4_data).
    + left. exists mp4_data. split; [apply dict_get_set_same|].
      exact mp4_data_not_empty.
  - cbn [except_all].
    rewrite (set_status_present generation_id failed g); [|exact Hg].
    eexists. split; [reflexivity|]. split; [now apply files_kept_same|right].
    unfold status_of. cbn [generations]. now rewrite dict_get_set_same.
Qed.

Lemma process_claimed_artifact (g : VideoGeneration) (w : World) :
  dict_get generation_id (generations w) = Some g ->
  match process_claimed env generation_id w with
  | (Ok _, w') =>
      files_kept generation_id w w'
      /\ (artifact_saved generation_id w'
          \/ status_of generation_id (generations w') = Some failed)
  | (Raise _, w') => files_kept generation_id w w'
  end.
Proof.
  intros Hg. unfold process_claimed. unfold bind at 1.
  unfold store_lookup at 1. rewrite Hg.
  destruct (negb (truthy (HF_TOKEN env))).
  - destruct (mock_video_generation_artifact g w Hg) as (w' & -> & Hk & Ha).
    split; assumption.
  - unfold bind at 1, os_path_exists at 1.
    destruct (dict_mem _ (files w)) eqn:Hmem; cbn [negb];
      [|apply files_kept_refl].
    unfold bind at 1, read_file. unfold dict_mem in Hmem.
    destruct (dict_get _ (files w)) as [image_data|]; [|discriminate].
    match goal with
    | |- context [retry_loop env generation_id ?r ?a ?d w] =>
        pose proof (retry_loop_artifact r a d w) as Hl;
        destruct (retry_loop env generation_id r a d w) as [[[]|e] w']
    end; [|exact Hl].
    destruct Hl as [Hk [Ha|Hall]]; [split; [exact Hk|now left]|].
    exfalso. unfold max_retries in Hall. cbn in Hall.
    inversion Hall as [|? ? _ H1]; subst.
    inversion H1 as [|? ? _ H2]; subst.
    inversion H2 as [|? ? H3 _]; subst. lia.
Qed.

(** Whatever a run does, the other files stay, and a job it does not leave
    failed has its video on disk. *)
Lemma process_video_generation_artifact (g : VideoGeneration) (w : World) :
  dict_get generation_id (generations w) = Some g ->
  exists w',
    process_video_generation env generation_id w = (Ok tt, w')
    /\ files_kept generation_id w w'
    /\ (artifact_saved generation_id w'
        \/ status_of generation_id (generations w') = Some failed).
Proof.
  intros Hg.
  rewrite (process_video_generation_split env generation_id g w Hg).
  unfold resume_claimed, try_except.
  set (w0 := started generation_id g w).
  assert (files_kept generation_id w w0) as H0 by (now apply files_kept_same).
  pose proof (process_claimed_artifact (with_status processing g) w0
                (started_record generation_id g w)) as Ha.
  pose proof (process_claimed_cases env generation_id (with_status processing g)
                w0 (started_record generation_id g w)) as Hc.
  destruct (process_claimed env generation_id w0) as [[[]|e] w1].
  - destruct Ha as [Hk Ha]. eexists. split; [reflexivity|].
    split; [apply files_kept_trans with w0; assumption|exact Ha].
  - cbn [except_all].
    destruct (fail_after_quiet generation_id _ _ w0 w1
                (started_record generation_id g w) Hc) as (w2 & E & Hw).
    pose proof (set_status_files failed w1) as Hf. rewrite E in *.
    cbn [snd] in Hf. exists w2. split; [reflexivity|]. split.
    + eapply files_kept_trans; [exact H0|].
      eapply files_kept_trans; [exact Ha|]. now apply files_kept_same.
    + right. destruct (wrote_record _ _ _ _ _ Hw) as (g0 & _ & Hrec).
      unfold status_of. now rewrite Hrec.
Qed.
End Artifacts.

(** X12. A job that a run of the controller leaves completed has its video:
    the file [videos/video_<id>.mp4] is on disk and is not empty, and the
    job's [videoUrl] is that path after a slash, which is where the
    [/videos] mount serves it from. *)
Theorem completed_job_has_its_video (env : Env) (generation_id : string)
    (g : VideoGeneration) (w : World) :
  dict_get generation_id (generations w) = Some g ->
  let w' := snd (process_video_generation env generation_id w) in
  status_of generation_id (generations w') = Some completed ->
  videoUrl_of generation_id (generations w')
  = Some (Some (String "/" (video_path_of generation_id)))
  /\ exists data,
       dict_get (video_path_of generation_id) (files w') = Some data
       /\ data <> [].
Proof.
  intros Hg w' Hdone. subst w'.
  destruct (process_video_generation_artifact env generation_id g w Hg)
    as (w' & E & _ & Ha).
  pose proof (process_video_generation_cases env generation_id g w Hg) as Hc.
  cbv zeta in Hc. destruct Hc as (w'' & E' & Hc).
  rewrite E in E'. injection E' as <-. rewrite E in Hdone |- *. cbn [snd] in *.
  split.
  - destruct Hc as [Hw|Hw]; destruct (wrote_record _ _ _ _ _ Hw) as (g0 & _ & Hrec).
    + unfold videoUrl_of. rewrite Hrec. reflexivity.
    + unfold status_of in Hdone. rewrite Hrec in Hdone. discriminate Hdone.
  - destruct Ha as [Ha|Hfailed]; [exact Ha|]. congruence.
Qed.

Lemma completed_job_has_its_video_witness :
  let w :=
    with_network [RequestFailed "timeout"; Responded sample_video]
      (world sample_system) in
  let w' := snd (process_video_generation sample_env "job-1" w) in
  videoUrl_of "job-1" (generations w')
  = Some (Some "/videos/video_job-1.mp4"%string)
  /\ exists data,
       dict_get "videos/video_job-1.mp4" (files w') = Some data /\ data <> [].
Proof.
  intros w w'.
  exact (completed_job_has_its_video sample_env "job-1" sample_job w
           eq_refl eq_refl).
Defined.

Lemma length_append (a b : string) :
  String.length (String.append a b) = (String.length a + String.length b)%nat.
Proof. induction a as [|c a IH]; simpl; [reflexivity|now rewrite IH]. Qed.

Lemma append_inj_l (p a b : string) :
  String.append p a = String.append p b -> a = b.
Proof. induction p as [|c p IH]; simpl; [auto|]. intros [= H]. auto. Qed.

Lemma append_inj_r (s a b : string) :
  String.append a s = String.append b s -> a = b.
Proof.
  revert b. induction a as [|c a IH]; intros [|c' b] H; simpl in H.
  - reflexivity.
  - apply (f_equal String.length) in H. simpl in H.
    rewrite length_append in H. lia.
  - apply (f_equal String.length) in H. simpl in H.
    rewrite length_append in H. lia.
  - injection H as -> H. f_equal. now apply IH.
Qed.

Lemma video_path_of_inj (a b : string) :
  video_path_of a = video_path_of b -> a = b.
Proof.
  unfold video_path_of, video_filename_of. intros H.
  apply append_inj_l, append_inj_l, append_inj_r in H. exact H.
Qed.

(** X13. A run of the controller changes no file but the video of its own
    job: every other path holds what it held, and in particular the uploaded
    images and the videos of the other jobs, whose paths differ from its
    own. *)
Theorem controller_keeps_the_other_files (env : Env) (generation_id : string)
    (w : World) :
  let w' := snd (process_video_generation env generation_id w) in
  (forall path,
     path <> video_path_of generation_id ->
     dict_get path (files w') = dict_get path (files w))
  /\ (forall other,
        other <> generation_id ->
        dict_get (video_path_of other) (files w')
        = dict_get (video_path_of other) (files w))
  /\ (forall filename,
        dict_get (String.append "uploads/" filename) (files w')
        = dict_get (String.append "uploads/" filename) (files w)).
Proof.
  intros w'. subst w'.
  assert (files_kept generation_id w
            (snd (process_video_generation env generation_id w))) as Hk.
  { destruct (dict_get generation_id (generations w)) as [g|] eqn:Hg.
    - destruct (process_video_generation_artifact env generation_id g w Hg)
        as (w' & -> & Hk & _). exact Hk.
    - unfold process_video_generation, try_except, process_body, bind,
        set_status, bind, store_lookup.
      rewrite Hg. cbn [except_all]. rewrite Hg. apply files_kept_refl. }
  split; [exact Hk|]. split.
  - intros other Hne. apply Hk. intros E. apply Hne.
    now apply video_path_of_inj.
  - intros filename. apply Hk. unfold video_path_of. discriminate.
Qed.

(** ** The handlers of the store *)

(** X14. The job that [generate_video] answers with is the one
    [get_generation] then finds under the new identifier: pending, without
    [videoUrl], and scheduled once.  The submission changes what
    [get_generation] answers for no other identifier, so one that was
    unknown is still answered 404. *)
Theorem submitted_job_can_be_fetched (request : VideoGenerationRequest)
    (uuid4 utcnow : string) (sys : System) :
  let out := generate_video request uuid4 utcnow sys in
  (exists g,
     fst out = HTTP_ok g
     /\ get_generation uuid4 (generations (world (snd out))) = HTTP_ok g
     /\ id g = uuid4 /\ status g = pending /\ videoUrl g = None
     /\ background_tasks (snd out) = background_tasks sys ++ [uuid4])
  /\ (forall k,
        k <> uuid4 ->
        get_generation k (generations (world (snd out)))
        = get_generation k (generations (world sys)))
  /\ (forall k,
        k <> uuid4 ->
        dict_mem k (generations (world sys)) = false ->
        get_generation k (generations (world (snd out)))
        = HTTPException 404 "Generation not found").
Proof.
  intros out. subst out. unfold generate_video, store_write.
  cbn [fst snd world generations background_tasks]. split; [|split].
  - eexists. split; [reflexivity|]. unfold get_generation.
    rewrite dict_get_set_same. repeat split.
  - intros k Hne. unfold get_generation.
    rewrite dict_get_set_other by congruence. reflexivity.
  - intros k Hne Hk. unfold get_generation.
    rewrite dict_get_set_other by congruence.
    unfold dict_mem in Hk.
    destruct (dict_get k (generations (world sys))); [discriminate|reflexivity].
Qed.

Lemma StronglySorted_app_inv (A : Type) (R : A -> A -> Prop) (l1 l2 : list A) :
  StronglySorted R (l1 ++ l2) ->
  forall a b, In a l1 -> In b l2 -> R a b.
Proof.
  induction l1 as [|x l1 IH]; intros Hs a b Ha Hb; [destruct Ha|].
  cbn [app] in Hs. inversion Hs as [|? ? Hs' Hall]; subst.
  destruct Ha as [<-|Ha].
  - rewrite Forall_forall in Hall. apply Hall, in_or_app. now right.
  - now apply IH.
Qed.

(** X15. [get_generations] answers with the most recent jobs: it returns
    ten jobs, or all of them when the store holds fewer, and every job it
    leaves out was created no later than every job it returns. *)
Theorem get_generations_are_the_most_recent (generations : Store) :
  let r := get_generations generations in
  List.length r = Nat.min 10 (List.length generations)
  /\ exists dropped,
       Permutation (r ++ dropped) (dict_values generations)
       /\ (forall a b,
             In a r -> In b dropped ->
             String.leb (createdAt b) (createdAt a) = true)
       /\ ((List.length generations <= 10)%nat -> dropped = []).
Proof.
  unfold get_generations. cbv zeta.
  set (sorted := sort_reverse createdAt (dict_values generations)).
  assert (List.length sorted = List.length generations) as Hlen.
  { unfold sorted. rewrite (Permutation_length (sort_reverse_perm _ createdAt _)).
    unfold dict_values. apply length_map. }
  split.
  - rewrite length_firstn, Hlen. reflexivity.
  - exists (skipn 10 sorted). split; [|split].
    + rewrite firstn_skipn. apply sort_reverse_perm.
    + apply (StronglySorted_app_inv _ (desc createdAt)).
      rewrite firstn_skipn. apply sort_reverse_sorted.
    + intros Hle. apply skipn_all2. lia.
Qed.

Lemma dict_set_fresh (V : Type) (k : string) (v : V) (d : dict V) :
  dict_mem k d = false -> dict_set k v d = d ++ [(k, v)].
Proof.
  unfold dict_mem. induction d as [|[k' v'] d IH]; simpl; [reflexivity|].
  destruct (String.eqb k k'); [discriminate|]. intros H. now rewrite IH.
Qed.

Lemma insert_greatest (A : Type) (key : A -> string) (x : A) (l : list A) :
  Forall (fun y => String.ltb (key y) (key x) = true) l ->
  insert key x l = l ++ [x].
Proof.
  induction 1 as [|y l Hy _ IH]; simpl; [reflexivity|].
  now rewrite Hy, IH.
Qed.

(** X16. A job submitted under a new identifier, with a creation time later
    than that of every job of the store, is the first that
    [get_generations] then returns. *)
Theorem newest_submission_is_listed_first (request : VideoGenerationRequest)
    (uuid4 utcnow : string) (sys : System) :
  dict_mem uuid4 (generations (world sys)) = false ->
  (forall g,
     In g (dict_values (generations (world sys))) ->
     String.ltb (createdAt g) (String.append utcnow "Z") = true) ->
  let out := generate_video request uuid4 utcnow sys in
  exists g,
    fst out = HTTP_ok g
    /\ hd_error (get_generations (generations (world (snd out)))) = Some g.
Proof.
  intros Hfresh Hlate out. subst out. unfold generate_video, store_write.
  cbn [fst snd world generations]. eexists. split; [reflexivity|].
  set (g := {| id := uuid4; characterImageUrl := _; script := _; duration := _;
               quality := _; videoUrl := None; status := pending;
               createdAt := _ |}).
  rewrite (dict_set_fresh _ uuid4 g _ Hfresh).
  unfold get_generations, dict_values, sort_reverse.
  rewrite map_app. cbn [map snd]. rewrite rev_app_distr. cbn [rev app].
  cbn [stable_sort fold_right].
  fold (stable_sort createdAt (rev (map snd (generations (world sys))))).
  rewrite insert_greatest.
  - rewrite rev_app_distr. reflexivity.
  - apply (Permutation_Forall
             (Permutation_sym
                (Permutation_trans (stable_sort_perm _ createdAt _)
                   (Permutation_sym (Permutation_rev _))))).
    apply Forall_forall. exact Hlate.
Qed.

Lemma newest_submission_is_listed_first_witness :
  option_map id
    (hd_error
       (get_generations
          (generations
             (world
                (handle
                   (PostGenerateVideo sample_body "job-2"
                      "2024-05-01T10:05:00.000")
                   sample_system)))))
  = Some "job-2"%string.
Proof.
  destruct (newest_submission_is_listed_first
              {| req_characterImageUrl := "/uploads/character_1.jpg";
                 req_script := "Hello"; req_duration := 5; req_quality := "768" |}
              "job-2" "2024-05-01T10:05:00.000" sample_system eq_refl)
    as (g & Hg & Hhd).
  - intros g [<-|[]]. reflexivity.
  - cbn in Hg. injection Hg as <-.
    change (handle (PostGenerateVideo sample_body "job-2" "2024-05-01T10:05:00.000")
              sample_system)
      with (snd (generate_video
                   {| req_characterImageUrl := "/uploads/character_1.jpg";
                      req_script := "Hello"; req_duration := 5;
                      req_quality := "768" |}
                   "job-2" "2024-05-01T10:05:00.000" sample_system)).
    rewrite Hhd. reflexivity.
Defined.

(** ** Uploads *)

(** X17. [upload_character] never answers a failure with a status other
    than 500, and a failed upload changes nothing.  In particular a file
    whose content type does not start with [image/] is refused with 500,
    not with the 400 of the [HTTPException] raised for it, because the
    handler's own [except Exception] clause catches that exception; a part
    without a content type is refused the same way. *)
Theorem upload_failures_are_answered_500 (env : Env) (character : UploadFile)
    (uuid4 : string) (w : World) :
  (forall code cause,
     fst (upload_character env character uuid4 w) = UploadFailed code cause ->
     code = 500%Z /\ snd (upload_character env character uuid4 w) = w)
  /\ (forall content_type,
        upload_content_type character = Some content_type ->
        String.prefix "image/" content_type = false ->
        upload_character env character uuid4 w
        = (UploadFailed 500 (UploadHTTPException 400 "File must be an image"), w))
  /\ (upload_content_type character = None ->
      upload_character env character uuid4 w
      = (UploadFailed 500 (UploadRaised AttributeError), w)).
Proof.
  unfold upload_character, upload_body, write_file. split; [|split].
  - intros code cause.
    destruct (upload_content_type character) as [ct|]; cbn [fst snd].
    + destruct (negb (String.prefix "image/" ct)); cbn [fst snd].
      * intros [= <- _]. split; reflexivity.
      * destruct (writable env _); cbn [fst snd]; [discriminate|].
        intros [= <- _]. split; reflexivity.
    + intros [= <- _]. split; reflexivity.
  - intros ct -> Hct. rewrite Hct. reflexivity.
  - intros ->. reflexivity.
Qed.

Lemma contains_char_append (c : ascii) (a b : string) :
  contains_char c (String.append a b) = contains_char c a || contains_char c b.
Proof.
  induction a as [|c' a IH]; simpl; [reflexivity|].
  now rewrite IH, orb_assoc.
Qed.

Lemma last_segment_contains (c d : ascii) (s : string) :
  contains_char c s = false -> contains_char c (last_segment d s) = false.
Proof.
  induction s as [|c' s IH]; [reflexivity|].
  intros H. cbn [contains_char] in H. apply orb_false_iff in H as [Hc Hs].
  cbn [last_segment]. destruct (contains_char d s); [now apply IH|].
  destruct (Ascii.eqb d c'); [exact Hs|].
  cbn [contains_char]. now rewrite Hc, Hs.
Qed.

(** Replacing [/uploads/] in a string without a slash changes nothing. *)
Lemma replace_without_slash (new s : string) :
  contains_char "/" s = false ->
  replace_from "/uploads/" new 0 s = s.
Proof.
  induction s as [|c s IH]; [reflexivity|].
  intros H. cbn [contains_char] in H. apply orb_false_iff in H as [Hc Hs].
  cbn [replace_from].
  change (String.prefix "/uploads/" (String c s))
    with (if ascii_dec "/" c then String.prefix "uploads/" s else false).
  destruct (ascii_dec "/" c) as [<-|Hne]; [discriminate Hc|].
  now rewrite IH.
Qed.

Lemma prefix_append (p s : string) :
  String.prefix p (String.append p s) = true.
Proof.
  induction p as [|c p IH]; [destruct s; reflexivity|].
  change (String.prefix (String c p) (String.append (String c p) s))
    with (if ascii_dec c c then String.prefix p (String.append p s) else false).
  destruct (ascii_dec c c); [exact IH|congruence].
Qed.

Lemma replace_head (new filename : string) :
  replace_from "/uploads/" new 0 (String.append "/uploads/" filename)
  = String.append new (replace_from "/uploads/" new 0 filename).
Proof.
  change (String.append "/uploads/" filename)
    with (String "/" (String.append "uploads/" filename)).
  cbn [replace_from].
  change (String "/" (String.append "uploads/" filename))
    with (String.append "/uploads/" filename).
  rewrite prefix_append. reflexivity.
Qed.

(** The path the controller derives from the locator of an upload. *)
Lemma image_path_of_upload (filename : string) (g : VideoGeneration) :
  contains_char "/" filename = false ->
  characterImageUrl g = String.append "/uploads/" filename ->
  image_path_of g = String.append "uploads/" filename.
Proof.
  intros Hf Hurl. unfold image_path_of, str_replace. rewrite Hurl.
  rewrite replace_head. now rewrite replace_without_slash.
Qed.

Lemma upload_filename_without_slash (character : UploadFile) (uuid4 : string) :
  contains_char "/" uuid4 = false ->
  contains_char "/" (upload_filename character) = false ->
  contains_char "/" (upload_filename_of character uuid4) = false.
Proof.
  intros Hu Hf. unfold upload_filename_of.
  rewrite !contains_char_append, Hu.
  destruct (contains_char "." (upload_filename character)).
  - now rewrite last_segment_contains.
  - reflexivity.
Qed.

(** X18. An upload whose content type starts with [image/] and whose file
    can be written stores the content under
    [uploads/character_<uuid>.<extension>], touches no other file and
    answers with the locator [/uploads/...] of that file.  When neither the
    identifier nor the client's file name has a slash, the controller looks
    for the image of a job that carries this locator at exactly the path
    written, so it finds the uploaded content. *)
Theorem uploaded_image_is_found_by_the_controller (env : Env)
    (character : UploadFile) (uuid4 content_type : string) (w : World) :
  upload_content_type character = Some content_type ->
  String.prefix "image/" content_type = true ->
  writable env (String.append "uploads/" (upload_filename_of character uuid4))
  = true ->
  contains_char "/" uuid4 = false ->
  contains_char "/" (upload_filename character) = false ->
  let out := upload_character env character uuid4 w in
  let filename := upload_filename_of character uuid4 in
  fst out = Uploaded (String.append "/uploads/" filename)
  /\ generations (snd out) = generations w
  /\ dict_get (String.append "uploads/" filename) (files (snd out))
     = Some (upload_content character)
  /\ (forall path,
        path <> String.append "uploads/" filename ->
        dict_get path (files (snd out)) = dict_get path (files w))
  /\ (forall g,
        characterImageUrl g = String.append "/uploads/" filename ->
        dict_get (image_path_of g) (files (snd out))
        = Some (upload_content character)).
Proof.
  intros Hct Himage Hw Hu Hf out filename. subst out filename.
  unfold upload_character, upload_body, write_file.
  rewrite Hct, Himage. cbn [negb]. rewrite Hw. cbn [fst snd generations files].
  split; [reflexivity|]. split; [reflexivity|].
  split; [apply dict_get_set_same|]. split.
  - intros path Hne. apply dict_get_set_other. congruence.
  - intros g Hurl.
    rewrite (image_path_of_upload (upload_filename_of character uuid4) g
               (upload_filename_without_slash character uuid4 Hu Hf) Hurl).
    apply dict_get_set_same.
Qed.

Lemma uploaded_image_is_found_by_the_controller_witness :
  let character :=
    {| upload_filename := "my.photo.PNG";
       upload_content_type := Some "image/png"%string;
       upload_content := [x89; x50; x4e; x47] |} in
  let out := upload_character sample_env character "1b4e28ba" (world (initial [])) in
  fst out = Uploaded "/uploads/character_1b4e28ba.PNG"
  /\ dict_get "uploads/character_1b4e28ba.PNG" (files (snd out))
     = Some [x89; x50; x4e; x47].
Proof.
  intros character out.
  destruct (uploaded_image_is_found_by_the_controller sample_env character
              "1b4e28ba" "image/png" (world (initial []))
              eq_refl eq_refl eq_refl eq_refl eq_refl)
    as (Hurl & _ & Hfile & _).
  split; [exact Hurl|exact Hfile].
Defined.

(** A client file name whose last segment holds [/uploads/] breaks the
    correspondence: the controller looks for the image at another path than
    the one written. *)
Example upload_with_a_slash_is_not_found :
  let character :=
    {| upload_filename := "x./uploads/y";
       upload_content_type := Some "image/png"%string;
       upload_content := [x89] |} in
  let out := upload_character sample_env character "u" (world (initial [])) in
  fst out = Uploaded "/uploads/character_u./uploads/y"
  /\ dict_mem "uploads/character_u./uploads/y" (files (snd out)) = true
  /\ str_replace "/uploads/" "uploads/" "/uploads/character_u./uploads/y"
     = "uploads/character_u.uploads/y"%string
  /\ dict_mem "uploads/character_u.uploads/y" (files (snd out)) = false.
Proof. repeat split. Qed.

(** A file name without a dot gets the extension [jpg]. *)
Example upload_without_extension :
  upload_filename_of
    {| upload_filename := "portrait"; upload_content_type := None;
       upload_content := [] |} "u"
  = "character_u.jpg"%string.
Proof. reflexivity. Qed.

(** An upload that succeeds is the [UploadCharacter] event of the server. *)
Lemma upload_character_is_the_event (env : Env) (character : UploadFile)
    (uuid4 imageUrl : string) (sys : System) :
  fst (upload_character env character uuid4 (world sys)) = Uploaded imageUrl ->
  snd (upload_character env character uuid4 (world sys))
  = world (handle (UploadCharacter (upload_filename_of character uuid4)
                     (upload_content character)) sys).
Proof.
  unfold upload_character, upload_body, write_file, handle.
  destruct (upload_content_type character) as [ct|]; [|discriminate].
  destruct (negb (String.prefix "image/" ct)); [discriminate|].
  destruct (writable env _); [|discriminate].
  reflexivity.
Qed.
